(** * Valshi: the ingestion-and-detection engine of [app.py]

    A shallow embedding of the part of [app.py] that polls the Kalshi trade
    feed, tags unusual trades, stores them and fans alerts out to
    subscribers, together with the properties of that code.

    Conventions of the embedding.
    - Python [int] is [Z]; Python [float] (prices, notionals, thresholds,
      medians) is an exact rational [Q], so rounding, infinities and NaN are
      not represented.
    - A raw trade (a [Dict[str, Any]] decoded from JSON) is a record with one
      optional field per key that the code reads; [None] stands for a key
      that is absent or [null]: the code reads the keys through
      [get(..) or ..], which treats the two alike.  The one place that tells
      them apart is the identifier synthesised for a trade without [id],
      where [null] would be printed as [None]; there [None] stands for an
      absent key only.  Identifiers, symbols and timestamps are text (a
      number in a timestamp field is its decimal text, of ASCII digits),
      counts are integers, prices are numbers.  Values on which [int()] or
      [float()] would raise inside [trade_core_fields] (a price or count
      that is a text such as [abc]) are not represented: on them the
      exception leaves [ingest_loop].
    - The SQLite tables are explicit values: [prints] is a list of rows in
      insertion order, [stats] and [meta] are finite maps.  Every statement
      is committed at once in the source, so a store value is the committed
      state.
    - The network, the wall clock and the Telegram transport are oracles
      supplied from outside; exceptions are explicit results.
    - The market title shown in an alert ([get_market_title]) is a
      display-only lookup that never raises; it is left out of the alerts,
      and its requests appear only as [CallTitle] among the calls of the
      fetcher. *)

From Stdlib Require Import ZArith QArith String Ascii List Bool Lia.
From stdpp Require Import gmap strings list sorting pretty.
Import ListNotations.

Local Open Scope string_scope.
Local Open Scope list_scope.
Local Open Scope Z_scope.

(** ** Configuration *)

(** [FALLBACK] is a literal of the source.  [PRIMARY], [DEFAULT_THRESH] and
    the host list are read from the process environment at start-up: they are
    fields of the configuration record below. *)
Definition FALLBACK : string := "https://api.elections.kalshi.com/trade-api/v2".

Record Config := {
  PRIMARY : string;
  KALSHI_BASE_URL_set : bool;
  DEFAULT_THRESH : Q
}.

(** [self.hosts] as computed by [KalshiHTTP.__init__]. *)
Definition config_hosts (cfg : Config) : list string :=
  if KALSHI_BASE_URL_set cfg then [PRIMARY cfg] else [PRIMARY cfg; FALLBACK].

(** ** Data of the feed *)

(** A raw trade as delivered by the feed.  For the three price keys, [None]
    is an absent key, [Some None] a key that is present with [null] and
    [Some (Some q)] a number. *)
Record RawTrade := {
  tr_id : option string;
  tr_trade_id : option string;
  tr_ticker : option string;
  tr_market : option string;
  tr_created_time : option string;
  tr_ts : option string;
  tr_side : option string;
  tr_direction : option string;
  tr_count : option Z;
  tr_size : option Z;
  tr_yes_price_dollars : option (option Q);
  tr_yes_price : option (option Q);
  tr_price : option (option Q)
}.

(** The JSON object of a [/markets/trades] answer: the three keys that
    [fetch_trades_since] looks at. *)
Record Json := {
  j_trades : list RawTrade;
  j_data : list RawTrade;
  j_results : list RawTrade
}.

(** ** HTTP layer: [KalshiHTTP] *)

(** The query parameters the code ever sends; [None] is an absent key. *)
Record Params := {
  p_limit : option Z;
  p_min_ts : option Z;
  p_status : option string
}.

Record Request := {
  rq_host : string;
  rq_path : string;
  rq_params : Params
}.

(** What [self.client.get] can do: [Status] is an HTTP answer, with
    [body = None] when [r.json()] would raise; [NetworkFailure] is one of
    [httpx.ConnectError], [httpx.ReadTimeout] and [httpx.NetworkError]
    (with its subclasses [ReadError], [WriteError] and [CloseError]);
    [OtherFailure] is any other exception, [httpx.ConnectTimeout],
    [httpx.WriteTimeout] and [httpx.PoolTimeout] among them. *)
Inductive Response :=
| Status (code : Z) (body : option Json)
| NetworkFailure
| OtherFailure.

(** Exceptions that leave [resilient_get]: [ServerError] is the
    [RuntimeError] made for a 5xx answer, [NetworkError] one of the three
    network exceptions, [AllHostsFailed] the [RuntimeError] raised when no
    error was recorded, [OtherError] anything else. *)
Inductive Exn :=
| HTTPStatusError (code : Z)
| ServerError (code : Z)
| NetworkError
| OtherError
| AllHostsFailed.

(** The upstream, seen from the client: the answer to the [n]-th request. *)
Definition Net := nat -> Request -> Response.

(** The [KALSHI] singleton, with the log of the requests it has issued. *)
Record KalshiHTTP := {
  hosts : list string;
  host : option string;
  min_ts_supported : option bool;
  sent : list Request
}.

Definition KalshiHTTP_init (cfg : Config) : KalshiHTTP :=
  {| hosts := config_hosts cfg; host := None; min_ts_supported := None; sent := [] |}.

Definition set_host (h : string) (k : KalshiHTTP) : KalshiHTTP :=
  {| hosts := hosts k; host := Some h; min_ts_supported := min_ts_supported k; sent := sent k |}.

Definition set_min_ts_supported (b : bool) (k : KalshiHTTP) : KalshiHTTP :=
  {| hosts := hosts k; host := host k; min_ts_supported := Some b; sent := sent k |}.

Definition mk_request (h path : string) (params : Params) : Request :=
  {| rq_host := h; rq_path := path; rq_params := params |}.

(** The fetcher after it has issued the requests [rqs]. *)
Definition with_sent (k : KalshiHTTP) (rqs : list Request) : KalshiHTTP :=
  {| hosts := hosts k; host := host k; min_ts_supported := min_ts_supported k;
     sent := sent k ++ rqs |}.

Definition client_get (net : Net) (rq : Request) (k : KalshiHTTP) : KalshiHTTP * Response :=
  (with_sent k [rq], net (length (sent k)) rq).

Definition probe_params : Params :=
  {| p_limit := Some 1; p_min_ts := None; p_status := Some "open" |}.

(** The [for] loop of [pick_host]; [false] when no host answered 200. *)
Fixpoint pick_host_loop (net : Net) (hs : list string) (k : KalshiHTTP) : KalshiHTTP * bool :=
  match hs with
  | [] => (k, false)
  | h :: rest =>
      let '(k1, r) := client_get net (mk_request h "/markets" probe_params) k in
      match r with
      | Status code _ =>
          if code =? 200 then (set_host h k1, true) else pick_host_loop net rest k1
      | _ => pick_host_loop net rest k1
      end
  end.

Definition pick_host (net : Net) (k : KalshiHTTP) : KalshiHTTP :=
  let '(k1, found) := pick_host_loop net (hosts k) k in
  if found then k1 else set_host FALLBACK k1.

(** [r.raise_for_status()] raises for every status outside 200..299. *)
Definition is_success (code : Z) : bool := (200 <=? code) && (code <? 300).

Definition or_else {A} (o : option A) (d : A) : A :=
  match o with Some a => a | None => d end.

(** The [for h in order] loop of [resilient_get]; [pinned] is [self.host]
    on entry to the loop. *)
Fixpoint try_hosts (net : Net) (path : string) (params : Params) (pinned : string)
    (order : list string) (last_err : option Exn) (k : KalshiHTTP) : KalshiHTTP * (Exn + Json) :=
  match order with
  | [] => (k, inl (or_else last_err AllHostsFailed))
  | h :: rest =>
      let '(k1, r) := client_get net (mk_request h path params) k in
      match r with
      | Status code body =>
          if 500 <=? code then try_hosts net path params pinned rest (Some (ServerError code)) k1
          else if is_success code then
            let k2 := if String.eqb h pinned then k1 else set_host h k1 in
            match body with
            | Some j => (k2, inr j)
            | None => (k2, inl OtherError)
            end
          else (k1, inl (HTTPStatusError code))
      | NetworkFailure => try_hosts net path params pinned rest (Some NetworkError) k1
      | OtherFailure => (k1, inl OtherError)
      end
  end.

(** The answers on which [resilient_get] moves on to the next host. *)
Definition fails_over (r : Response) : bool :=
  match r with
  | Status code _ => 500 <=? code
  | NetworkFailure => true
  | OtherFailure => false
  end.

Definition host_order (pinned : string) (hs : list string) : list string :=
  pinned :: List.filter (fun h => negb (String.eqb h pinned)) hs.

Definition resilient_get (net : Net) (path : string) (params : Params) (k : KalshiHTTP)
    : KalshiHTTP * (Exn + Json) :=
  let k0 := match host k with None => pick_host net k | Some _ => k end in
  let pinned := or_else (host k0) FALLBACK in
  try_hosts net path params pinned (host_order pinned (hosts k0)) None k0.

(** [KalshiHTTP.get] *)
Definition kalshi_get := resilient_get.

(** ** [fetch_trades_since] *)

(** [data.get("trades") or data.get("data") or data.get("results") or []] *)
Definition extract_trades (data : Json) : list RawTrade :=
  match j_trades data with
  | _ :: _ => j_trades data
  | [] => match j_data data with
          | _ :: _ => j_data data
          | [] => j_results data
          end
  end.

Definition trades_path : string := "/markets/trades".

Definition trades_params (limit : Z) (min_ts : option Z) : Params :=
  {| p_limit := Some limit; p_min_ts := min_ts; p_status := None |}.

(** The capability probe, run while [min_ts_supported is None].  The result
    is [Some e] when the probe re-raises [e]. *)
Definition probe_min_ts (net : Net) (min_ts_ms : Z) (k : KalshiHTTP) : KalshiHTTP * option Exn :=
  match min_ts_supported k with
  | Some _ => (k, None)
  | None =>
      let '(k1, r) := kalshi_get net trades_path (trades_params 1 (Some min_ts_ms)) k in
      match r with
      | inr _ => (set_min_ts_supported true k1, None)
      | inl (HTTPStatusError code) =>
          if code =? 400 then (set_min_ts_supported false k1, None)
          else (k1, Some (HTTPStatusError code))
      | inl _ => (set_min_ts_supported false k1, None)
      end
  end.

Definition is_true_opt (o : option bool) : bool :=
  match o with Some true => true | _ => false end.

Definition fetch_trades_since (net : Net) (min_ts_ms limit : Z) (k : KalshiHTTP)
    : KalshiHTTP * (Exn + list RawTrade) :=
  let '(k1, reraised) := probe_min_ts net min_ts_ms k in
  match reraised with
  | Some e => (k1, inl e)
  | None =>
      let params :=
        trades_params limit (if is_true_opt (min_ts_supported k1) then Some min_ts_ms else None) in
      let '(k2, r) := kalshi_get net trades_path params k1 in
      match r with
      | inr data => (k2, inr (extract_trades data))
      | inl (HTTPStatusError code) =>
          if (code =? 400) && is_true_opt (min_ts_supported k2) then
            let k3 := set_min_ts_supported false k2 in
            let '(k4, r') := kalshi_get net trades_path (trades_params limit None) k3 in
            match r' with
            | inr data => (k4, inr (extract_trades data))
            | inl e => (k4, inl e)
            end
          else (k2, inl (HTTPStatusError code))
      | inl e => (k2, inl e)
      end
  end.

(** What [fetch_trades_since] makes of the outcome of a [KALSHI.get]. *)
Definition lift_trades (r : Exn + Json) : Exn + list RawTrade :=
  match r with
  | inr data => inr (extract_trades data)
  | inl e => inl e
  end.

(** The calls that reach [KALSHI.get] in the source: [fetch_trades_since],
    the title lookup of [get_market_title] (when the title is not cached) and
    the [/health] command. *)
Inductive KalshiCall :=
| CallFetch (min_ts_ms limit : Z)
| CallTitle (ticker : string)
| CallHealth.

Definition no_params : Params := {| p_limit := None; p_min_ts := None; p_status := None |}.

Definition run_call (net : Net) (c : KalshiCall) (k : KalshiHTTP) : KalshiHTTP :=
  match c with
  | CallFetch min_ts_ms limit => fst (fetch_trades_since net min_ts_ms limit k)
  | CallTitle ticker => fst (kalshi_get net (String.append "/markets/" ticker) no_params k)
  | CallHealth => fst (kalshi_get net "/markets" probe_params k)
  end.

(** Successive calls, each with the upstream it meets. *)
Definition run_calls (calls : list (Net * KalshiCall)) (k : KalshiHTTP) : KalshiHTTP :=
  fold_left (fun k0 '(net, c) => run_call net c k0) calls k.

(** A request without the [min_ts] parameter. *)
Definition omits_filter (rq : Request) : Prop := p_min_ts (rq_params rq) = None.

(** ** Text helpers of the Python runtime *)

Definition ascii_upper (c : ascii) : ascii :=
  let n := nat_of_ascii c in
  if ((97 <=? n) && (n <=? 122))%nat then ascii_of_nat (n - 32) else c.

(** [str.upper], on ASCII text. *)
Fixpoint upper (s : string) : string :=
  match s with
  | EmptyString => EmptyString
  | String c rest => String (ascii_upper c) (upper rest)
  end.

Definition digit_value (c : ascii) : option Z :=
  let n := nat_of_ascii c in
  if ((48 <=? n) && (n <=? 57))%nat then Some (Z.of_nat (n - 48)) else None.

(** [int(s)] for a text [s] of ASCII decimal digits; [None] when
    [s.isdigit()] is false.  Digits outside ASCII, which [str.isdigit] also
    accepts, are not represented. *)
Fixpoint digits_value (acc : Z) (s : string) : option Z :=
  match s with
  | EmptyString => Some acc
  | String c rest =>
      match digit_value c with
      | Some d => digits_value (10 * acc + d) rest
      | None => None
      end
  end.

Definition int_of_digits (s : string) : option Z :=
  match s with
  | EmptyString => None
  | _ => digits_value 0 s
  end.

(** [needle in s] *)
Fixpoint contains (needle s : string) : bool :=
  String.prefix needle s ||
  match s with
  | EmptyString => false
  | String _ rest => contains needle rest
  end.

(** [a or b] on optional text: the empty text is falsy. *)
Definition or_text (a b : option string) : option string :=
  match a with
  | Some s => if String.eqb s "" then b else Some s
  | None => b
  end.

(** [a or b or 0] on optional integers. *)
Definition or_int (a b : option Z) : Z :=
  match a with
  | Some x => if x =? 0 then or_else b 0 else x
  | None => or_else b 0
  end.

(** [a or b or 0] on the price keys, as [trade_core_fields] reads them. *)
Definition number_of (v : option (option Q)) : option Q :=
  match v with Some (Some q) => Some q | _ => None end.

Definition or_price (a b : option (option Q)) : Q :=
  match number_of a with
  | Some q => if Qeq_bool q 0 then or_else (number_of b) 0%Q else q
  | None => or_else (number_of b) 0%Q
  end.

(** [int(x)] of a float: truncation towards zero. *)
Definition int_of_float (q : Q) : Z := Z.quot (Qnum q) (Z.pos (Qden q)).

(** ** The durable store *)

(** A row of [prints]; [p_flags] is the text [",".join(flags)]. *)
Record PrintRow := {
  p_trade_id : string;
  p_ts_ms : Z;
  p_ticker : string;
  p_side : string;
  p_count : Z;
  p_yes_cents : Z;
  p_notional_usd : Q;
  p_flags : string
}.

(** The tables the loop writes.  [meta] holds text in the source; the only
    value the loop writes there is [str(last_ts)], kept here as the integer
    itself.  The [subs] table is written by the command handlers only and is
    an input of each poll cycle. *)
Record DB := {
  prints : list PrintRow;
  stats : gmap string Z;
  meta : gmap string Z
}.

Definition empty_db : DB := {| prints := []; stats := ∅; meta := ∅ |}.

Definition db_get (db : DB) (key : string) : option Z := meta db !! key.

Definition db_set (db : DB) (key : string) (value : Z) : DB :=
  {| prints := prints db; stats := stats db; meta := <[key := value]> (meta db) |}.

(** [SELECT last_trade_ts_ms FROM stats WHERE ticker=?], 0 without a row. *)
Definition last_trade_ts_for_ticker (db : DB) (ticker : string) : Z :=
  match stats db !! ticker with
  | Some v => v
  | None => 0
  end.

(** [INSERT ... ON CONFLICT(ticker) DO UPDATE SET
    last_trade_ts_ms=excluded.last_trade_ts_ms] *)
Definition update_last_trade_ts (db : DB) (ticker : string) (ts_ms : Z) : DB :=
  {| prints := prints db; stats := <[ticker := ts_ms]> (stats db); meta := meta db |}.

Definition has_trade_id (db : DB) (trade_id : string) : bool :=
  existsb (fun r => String.eqb (p_trade_id r) trade_id) (prints db).

Inductive IntegrityError := UniqueViolation.

(** The [INSERT INTO prints] statement: [trade_id] is the primary key. *)
Definition insert_print (db : DB) (row : PrintRow) : IntegrityError + DB :=
  if has_trade_id db (p_trade_id row) then inl UniqueViolation
  else inr {| prints := prints db ++ [row]; stats := stats db; meta := meta db |}.

Definition join_flags (flags : list string) : string := String.concat "," flags.

(** The tuple of values bound by the [INSERT] of [store_print]. *)
Definition print_row (trade_id : string) (ts_ms : Z) (ticker side : string)
    (count yes_cents : Z) (notional_usd : Q) (flags : list string) : PrintRow :=
  {| p_trade_id := trade_id; p_ts_ms := ts_ms; p_ticker := ticker;
     p_side := side; p_count := count; p_yes_cents := yes_cents;
     p_notional_usd := notional_usd; p_flags := join_flags flags |}.

(** [store_print]: the insert, with [aiosqlite.IntegrityError] swallowed. *)
Definition store_print (db : DB) (trade_id : string) (ts_ms : Z) (ticker side : string)
    (count yes_cents : Z) (notional_usd : Q) (flags : list string) : DB :=
  match insert_print db (print_row trade_id ts_ms ticker side count yes_cents notional_usd flags) with
  | inr db' => db'
  | inl UniqueViolation => db
  end.

(** The stored rows that carry a given [trade_id]. *)
Definition rows_with_id (db : DB) (trade_id : string) : list PrintRow :=
  List.filter (fun r => String.eqb (p_trade_id r) trade_id) (prints db).

(** [ORDER BY ts_ms DESC] *)
Definition newer_first (r1 r2 : PrintRow) : Prop := p_ts_ms r2 <= p_ts_ms r1.

#[local] Instance newer_first_dec : RelDecision newer_first.
Proof. intros r1 r2. unfold newer_first. apply _. Defined.

(** [ticker_recent_counts_24h]; [now] is the reading of [now_ms()].  Rows
    with equal [ts_ms] keep the order the sort gives them (SQL leaves it
    open). *)
Definition ticker_recent_counts_24h (db : DB) (now : Z) (ticker : string) : list Z :=
  let since := now - 24 * 3600 * 1000 in
  let rows := List.filter (fun r => String.eqb (p_ticker r) ticker && (since <=? p_ts_ms r)) (prints db) in
  let ordered := merge_sort newer_first rows in
  map p_count (take 5000 ordered).

(** [SELECT COUNT( * ) FROM prints WHERE ticker=? AND ts_ms>=? AND
    notional_usd>=?] *)
Definition count_recent_high_value (db : DB) (ticker : string) (since : Z) (min_notional : Q) : Z :=
  Z.of_nat (length (List.filter
    (fun r => String.eqb (p_ticker r) ticker && (since <=? p_ts_ms r)
              && Qle_bool min_notional (p_notional_usd r)) (prints db))).

(** [median] *)
Definition median (lst : list Z) : Q :=
  match lst with
  | [] => 0%Q
  | _ =>
      let a := merge_sort Z.le lst in
      let n := length a in
      let mid := (n / 2)%nat in
      let lo := nth (mid - 1) a 0 in
      let hi := nth mid a 0 in
      if Nat.odd n then inject_Z hi
      else (inject_Z (lo + hi) / 2)%Q
  end.

(** ** Subscribers and alerts *)

(** A row of [subs] as [load_subscribers] returns it. *)
Record Sub := {
  s_user_id : Z;
  s_alerts_on : Z;
  s_thresh_usd : Q;
  s_topic : string;
  s_tz : string
}.

(** What one [notify_user] call is given: the user and the arguments of
    [fmt_alert_text] (the market title, a display-only lookup, is left
    out). *)
Record Alert := {
  a_uid : Z;
  a_ticker : string;
  a_side : string;
  a_notional : Q;
  a_count : Z;
  a_yes_cents : Z;
  a_ts_ms : Z;
  a_flags : list string;
  a_tz : string
}.

(** What [bot.send_message] can do; [RaisesOther] is any exception that is
    not a [TelegramNetworkError]. *)
Inductive SendOutcome :=
| Delivered
| RaisesTelegramNetworkError
| RaisesOther.

Definition categorize_ticker (tk : string) : string :=
  let t := upper tk in
  if contains "BTC" t || contains "CRYPTO" t then "crypto"
  else if existsb (fun k => contains k t) ["CPI"; "FED"; "RATE"; "UNEMP"; "GDP"; "PCE"] then "macro"
  else if existsb (fun k => contains k t) ["NFL"; "NBA"; "MLB"; "NHL"; "EPL"] then "sports"
  else "other".

Definition topic_match (user_topic tk : string) : bool :=
  String.eqb user_topic "all" || String.eqb (categorize_ticker tk) user_topic.

(** [notify_user]: the call is logged with its outcome; the result is
    [true] when an exception leaves the function. *)
Definition notify_user (send : Z -> SendOutcome) (al : Alert)
    (out : list (Alert * SendOutcome)) : list (Alert * SendOutcome) * bool :=
  match send (a_uid al) with
  | Delivered => (out ++ [(al, Delivered)], false)
  | RaisesTelegramNetworkError => (out ++ [(al, RaisesTelegramNetworkError)], false)
  | RaisesOther => (out ++ [(al, RaisesOther)], true)
  end.

(** ** Normalisation and the ingestion loop *)

Section Ingest.

Variable cfg : Config.

(** [int(datetime.fromisoformat(s.replace("Z","+00:00")).timestamp() * 1000)],
    [None] when the library raises. *)
Variable iso_to_ms : string -> option Z.

Definition parse_ts_to_ms (now : Z) (ts : option string) : Z :=
  match ts with
  | None => now
  | Some s =>
      match int_of_digits s with
      | Some v => if v >? 10000000000 then v else v * 1000
      | None =>
          match iso_to_ms s with
          | Some ms => ms
          | None => now
          end
      end
  end.

Definition trade_notional_usd (tr : RawTrade) : Q :=
  let count := or_int (tr_count tr) (tr_size tr) in
  let dollars := match tr_yes_price_dollars tr with Some v => v | None => None end in
  let cents :=
    match tr_yes_price tr with
    | Some v => v
    | None => match tr_price tr with Some v => v | None => None end
    end in
  match dollars with
  | Some d => (inject_Z count * d)%Q
  | None =>
      match cents with
      | Some c => (inject_Z count * (c / 100))%Q
      | None => 0%Q
      end
  end.

(** The identifier synthesised when the feed gives none:
    [f"t_{tr.get('ticker','')}_{tr.get('created_time','')}_{tr.get('count','')}"].
    A key that is present is printed as its text or decimal number and an
    absent key as the empty text.  (A key present with [null] would be
    printed as [None]; the record does not tell it from an absent key.) *)
Definition synthetic_id (tr : RawTrade) : string :=
  String.append "t_" (String.append (or_else (tr_ticker tr) "")
    (String.append "_" (String.append (or_else (tr_created_time tr) "")
      (String.append "_" (match tr_count tr with Some c => pretty c | None => "" end))))).

Definition trade_core_fields (now : Z) (tr : RawTrade) : string * Z * string * string * Z * Z :=
  let trade_id :=
    match or_text (tr_id tr) (tr_trade_id tr) with
    | Some s => if String.eqb s "" then synthetic_id tr else s
    | None => synthetic_id tr
    end in
  let ts_ms := parse_ts_to_ms now (or_text (tr_created_time tr) (tr_ts tr)) in
  let ticker := upper (or_else (or_text (tr_ticker tr) (tr_market tr)) "") in
  let side0 := upper (or_else (or_text (tr_side tr) (tr_direction tr)) "") in
  let side := if String.eqb side0 "" then "UNKNOWN" else side0 in
  let count := or_int (tr_count tr) (tr_size tr) in
  let yes_cents := int_of_float (or_price (tr_yes_price tr) (tr_price tr)) in
  (trade_id, ts_ms, ticker, side, count, yes_cents).

Definition core_trade_id (f : string * Z * string * string * Z * Z) : string :=
  let '(trade_id, _, _, _, _, _) := f in trade_id.
Definition core_ts_ms (f : string * Z * string * string * Z * Z) : Z :=
  let '(_, ts_ms, _, _, _, _) := f in ts_ms.
Definition core_ticker (f : string * Z * string * string * Z * Z) : string :=
  let '(_, _, ticker, _, _, _) := f in ticker.
Definition core_side (f : string * Z * string * string * Z * Z) : string :=
  let '(_, _, _, side, _, _) := f in side.
Definition core_count (f : string * Z * string * string * Z * Z) : Z :=
  let '(_, _, _, _, count, _) := f in count.
Definition core_yes_cents (f : string * Z * string * string * Z * Z) : Z :=
  let '(_, _, _, _, _, yes_cents) := f in yes_cents.

(** The four values the [flags] column can take: the tags that exist when
    [store_print] is called, joined by commas. *)
Definition stored_flags : list string :=
  [""; "Silent-breaker"; "Unusual size"; "Silent-breaker,Unusual size"].

(** The state of one pass over a batch: the store, the log of
    [bot.send_message] calls and [max_seen]. *)
Record Batch := {
  b_db : DB;
  b_out : list (Alert * SendOutcome);
  b_max_seen : Z
}.

(** Lines 408-430 of the loop body: tagging, the per-instrument update and
    the insert.  The result carries the list [flags] as it is when
    [store_print] is called and as it is when the alerts are built. *)
Definition tag_and_store (now : Z) (db : DB) (trade_id : string) (ts_ms : Z)
    (ticker side : string) (count yes_cents : Z) (notional : Q)
    : DB * list string * list string :=
  let flags0 : list string := [] in
  let last_tick_ts := last_trade_ts_for_ticker db ticker in
  let flags1 :=
    if negb (last_tick_ts =? 0) && (2 * 3600 * 1000 <=? ts_ms - last_tick_ts)
    then flags0 ++ ["Silent-breaker"] else flags0 in
  let db1 := update_last_trade_ts db ticker ts_ms in
  let counts24 := ticker_recent_counts_24h db1 now ticker in
  let med := median counts24 in
  let flags2 :=
    if negb (Qle_bool med 0) && Qle_bool (5 * med) (inject_Z count)
    then flags1 ++ ["Unusual size"] else flags1 in
  let db2 := store_print db1 trade_id ts_ms ticker side count yes_cents notional flags2 in
  let since10 := ts_ms - 10 * 60 * 1000 in
  let n10 := count_recent_high_value db2 ticker since10 (DEFAULT_THRESH cfg) in
  let flags3 := if 3 <=? n10 then flags2 ++ ["Accumulation"] else flags2 in
  (db2, flags2, flags3).

(** The [for uid, thr, top, tz in active_subs] loop; [true] when an
    exception leaves it. *)
Fixpoint dispatch (send : Z -> SendOutcome) (active : list (Z * Q * string * string))
    (ticker side : string) (notional : Q) (count yes_cents ts_ms : Z) (flags : list string)
    (out : list (Alert * SendOutcome)) : list (Alert * SendOutcome) * bool :=
  match active with
  | [] => (out, false)
  | (uid, thr, top, tz) :: rest =>
      if Qle_bool thr notional && topic_match top ticker then
        let al := {| a_uid := uid; a_ticker := ticker; a_side := side; a_notional := notional;
                     a_count := count; a_yes_cents := yes_cents; a_ts_ms := ts_ms;
                     a_flags := flags; a_tz := tz |} in
        let '(out1, raised) := notify_user send al out in
        if raised then (out1, true)
        else dispatch send rest ticker side notional count yes_cents ts_ms flags out1
      else dispatch send rest ticker side notional count yes_cents ts_ms flags out
  end.

(** The body of [for tr in trades]; [true] when an exception leaves it. *)
Definition process_trade (now : Z) (send : Z -> SendOutcome)
    (active : list (Z * Q * string * string)) (tr : RawTrade) (b : Batch) : Batch * bool :=
  let '(trade_id, ts_ms, ticker, side, count, yes_cents) := trade_core_fields now tr in
  let notional := trade_notional_usd tr in
  if Qle_bool notional 0 then (b, false)
  else
    let '(db2, _, flags) :=
      tag_and_store now (b_db b) trade_id ts_ms ticker side count yes_cents notional in
    let '(out1, raised) :=
      dispatch send active ticker side notional count yes_cents ts_ms flags (b_out b) in
    if raised then ({| b_db := db2; b_out := out1; b_max_seen := b_max_seen b |}, true)
    else
      ({| b_db := db2; b_out := out1;
          b_max_seen := if ts_ms >? b_max_seen b then ts_ms else b_max_seen b |}, false).

(** What the outside world contributes to one poll cycle: the upstream, the
    content of [subs], the wall clock while the trade at a given position of
    the batch is handled, and the outcome of [bot.send_message] for that
    trade and a given user. *)
Record CycleEnv := {
  e_net : Net;
  e_subs : list Sub;
  e_now : nat -> Z;
  e_send : nat -> Z -> SendOutcome
}.

Fixpoint process_trades (env : CycleEnv) (active : list (Z * Q * string * string))
    (i : nat) (trades : list RawTrade) (b : Batch) : Batch * bool :=
  match trades with
  | [] => (b, false)
  | tr :: rest =>
      let '(b1, raised) := process_trade (e_now env i) (e_send env i) active tr b in
      if raised then (b1, true) else process_trades env active (S i) rest b1
  end.

Definition active_subs (subs : list Sub) : list (Z * Q * string * string) :=
  map (fun s => (s_user_id s, s_thresh_usd s, s_topic s, s_tz s))
      (List.filter (fun s => s_alerts_on s =? 1) subs).

(** The state of [ingest_loop]: the fetcher, the store, the local
    [last_ts], the log of notifications, and whether the task still runs
    ([alive] turns [false] when an exception leaves the [while] loop). *)
Record Loop := {
  kalshi : KalshiHTTP;
  db : DB;
  last_ts : Z;
  outbox : list (Alert * SendOutcome);
  alive : bool
}.

(** Lines 379-383: the start of [ingest_loop]. *)
Definition ingest_start (now : Z) (k : KalshiHTTP) (d : DB) : Loop :=
  let start :=
    match db_get d "last_ts_ms" with
    | Some v => if 0 <=? v then v else now - 10 * 60 * 1000
    | None => now - 10 * 60 * 1000
    end in
  {| kalshi := k; db := d; last_ts := start; outbox := []; alive := true |}.

(** One iteration of [while True]. *)
Definition ingest_cycle (env : CycleEnv) (st : Loop) : Loop :=
  if negb (alive st) then st
  else
    let '(k1, r) := fetch_trades_since (e_net env) (last_ts st) 1000 (kalshi st) in
    match r with
    | inl _ =>
        {| kalshi := k1; db := db st; last_ts := last_ts st; outbox := outbox st; alive := true |}
    | inr [] =>
        {| kalshi := k1; db := db st; last_ts := last_ts st; outbox := outbox st; alive := true |}
    | inr trades =>
        let max_seen := last_ts st in
        let active := active_subs (e_subs env) in
        let '(b, raised) :=
          process_trades env active 0 trades
            {| b_db := db st; b_out := outbox st; b_max_seen := max_seen |} in
        if raised then
          {| kalshi := k1; db := b_db b; last_ts := last_ts st; outbox := b_out b; alive := false |}
        else if b_max_seen b >? last_ts st then
          {| kalshi := k1; db := db_set (b_db b) "last_ts_ms" (b_max_seen b);
             last_ts := b_max_seen b; outbox := b_out b; alive := true |}
        else
          {| kalshi := k1; db := b_db b; last_ts := last_ts st; outbox := b_out b; alive := true |}
    end.

(** Successive iterations, one environment each. *)
Definition ingest_run (envs : list CycleEnv) (st : Loop) : Loop :=
  fold_left (fun s env => ingest_cycle env s) envs st.

(** The pass states [b1] and [b2] agree except for the outcomes logged with
    the notifications. *)
Definition same_processing (b1 b2 : Batch) : Prop :=
  b_db b1 = b_db b2 /\ b_max_seen b1 = b_max_seen b2 /\ map fst (b_out b1) = map fst (b_out b2).

(** Whether a [bot.send_message] outcome is an exception that [notify_user]
    lets through. *)
Definition escapes (o : SendOutcome) : bool :=
  match o with
  | RaisesOther => true
  | _ => false
  end.

(** The timestamps of the trades of a batch that pass the notional gate,
    the first trade being handled at position [i]. *)
Fixpoint processed_timestamps (env : CycleEnv) (i : nat) (trades : list RawTrade) : list Z :=
  match trades with
  | [] => []
  | tr :: rest =>
      if Qle_bool (trade_notional_usd tr) 0 then processed_timestamps env (S i) rest
      else core_ts_ms (trade_core_fields (e_now env i) tr) :: processed_timestamps env (S i) rest
  end.

(** The loop with another value of the local [last_ts]. *)
Definition with_last_ts (w : Z) (st : Loop) : Loop :=
  {| kalshi := kalshi st; db := db st; last_ts := w; outbox := outbox st; alive := alive st |}.

(** What the fetch of a cycle returns. *)
Definition fetched (env : CycleEnv) (st : Loop) : Exn + list RawTrade :=
  snd (fetch_trades_since (e_net env) (last_ts st) 1000 (kalshi st)).

(** The watermark as the [meta] table has it. *)
Definition persisted (st : Loop) : option Z := db_get (db st) "last_ts_ms".

(** The persisted watermark, when there is one, is not ahead of [last_ts]. *)
Definition wm_synced (st : Loop) : Prop :=
  match persisted st with
  | Some v => v <= last_ts st
  | None => True
  end.

End Ingest.

(** Order on optional watermarks: an absent one is below every value. *)
Definition opt_le (a b : option Z) : Prop :=
  match a, b with
  | None, _ => True
  | Some x, Some y => x <= y
  | Some _, None => False
  end.

(** ** Concrete data for the examples *)

Module Ex.

Definition A : string := "https://api.kalshi.com/trade-api/v2".

Definition cfg : Config :=
  {| PRIMARY := A; KALSHI_BASE_URL_set := false; DEFAULT_THRESH := 5000%Q |}.

(** No timestamp of the examples is in ISO form. *)
Definition iso (s : string) : option Z := None.

(** A trade as the feed sends it: [id], [created_time], [ticker], [count] and
    [yes_price] in cents. *)
Definition trade (id created_time ticker : string) (count : Z) (yes_price : Q) : RawTrade :=
  {| tr_id := Some id; tr_trade_id := None; tr_ticker := Some ticker; tr_market := None;
     tr_created_time := Some created_time; tr_ts := None; tr_side := Some "yes";
     tr_direction := None; tr_count := Some count; tr_size := None;
     tr_yes_price_dollars := None; tr_yes_price := Some (Some yes_price); tr_price := None |}.

(** The same without any price key. *)
Definition unpriced (id created_time ticker : string) (count : Z) : RawTrade :=
  {| tr_id := Some id; tr_trade_id := None; tr_ticker := Some ticker; tr_market := None;
     tr_created_time := Some created_time; tr_ts := None; tr_side := Some "yes";
     tr_direction := None; tr_count := Some count; tr_size := None;
     tr_yes_price_dollars := None; tr_yes_price := None; tr_price := None |}.

Definition body (trs : list RawTrade) : Json :=
  {| j_trades := trs; j_data := []; j_results := [] |}.

(** An upstream that answers every request with 200 and the given trades. *)
Definition net_ok (trs : list RawTrade) : Net := fun _ _ => Status 200 (Some (body trs)).

(** An upstream whose primary host is down (503) while the fallback works. *)
Definition net_primary_down (trs : list RawTrade) : Net :=
  fun _ rq => if String.eqb (rq_host rq) A then Status 503 None else Status 200 (Some (body trs)).

(** An upstream whose primary host does not accept the connection within
    the client's timeout ([httpx.ConnectTimeout]) while the fallback works. *)
Definition net_primary_times_out (trs : list RawTrade) : Net :=
  fun _ rq => if String.eqb (rq_host rq) A then OtherFailure else Status 200 (Some (body trs)).

(** An upstream whose primary host refuses the connection ([httpx.ConnectError])
    while the fallback works. *)
Definition net_primary_refuses (trs : list RawTrade) : Net :=
  fun _ rq => if String.eqb (rq_host rq) A then NetworkFailure else Status 200 (Some (body trs)).

(** An upstream whose primary host is unreachable and whose fallback answers 404. *)
Definition net_fallback_404 : Net :=
  fun _ rq => if String.eqb (rq_host rq) A then NetworkFailure else Status 404 None.

(** An upstream that rejects the [min_ts] parameter with 400. *)
Definition net_rejects_min_ts (trs : list RawTrade) : Net :=
  fun _ rq =>
    match p_min_ts (rq_params rq) with
    | Some _ => Status 400 None
    | None => Status 200 (Some (body trs))
    end.

(** The fetcher with the primary host pinned and a given capability state. *)
Definition pinned (supported : option bool) : KalshiHTTP :=
  {| hosts := config_hosts cfg; host := Some A; min_ts_supported := supported; sent := [] |}.

Definition subscriber (uid : Z) : Sub :=
  {| s_user_id := uid; s_alerts_on := 1; s_thresh_usd := 5000%Q; s_topic := "all"; s_tz := "UTC" |}.

Definition env (net : Net) (subs : list Sub) (send : nat -> Z -> SendOutcome) : CycleEnv :=
  {| e_net := net; e_subs := subs; e_now := fun _ => 1700000000000; e_send := send |}.

Definition delivers : nat -> Z -> SendOutcome := fun _ _ => Delivered.

(** The transport raises something other than a network error for user 1. *)
Definition user1_raises : nat -> Z -> SendOutcome :=
  fun _ uid => if uid =? 1 then RaisesOther else Delivered.

(** The transport raises [TelegramNetworkError] for user 1. *)
Definition user1_unreachable : nat -> Z -> SendOutcome :=
  fun _ uid => if uid =? 1 then RaisesTelegramNetworkError else Delivered.

(** The loop at watermark [w], nothing stored yet. *)
Definition loop (supported : option bool) (w : Z) : Loop :=
  {| kalshi := pinned supported; db := empty_db; last_ts := w; outbox := []; alive := true |}.

Definition batch0 (d : DB) (w : Z) : Batch := {| b_db := d; b_out := []; b_max_seen := w |}.

(** Three trades on one instrument, 6000 dollars each. *)
Definition t1 : RawTrade := trade "t1" "1600000000000" "BTC-X" 10000 60.
Definition t2 : RawTrade := trade "t2" "1600000060000" "BTC-X" 10000 60.
Definition t3 : RawTrade := trade "t3" "1600000120000" "BTC-X" 10000 60.
(** A later arrival that carries an earlier timestamp. *)
Definition t_late : RawTrade := trade "t4" "1500000000000" "BTC-X" 10000 60.
(** A trade without price keys, with the latest timestamp of all. *)
Definition t_unpriced : RawTrade := unpriced "t5" "1650000000000" "BTC-X" 10000.
(** Trades exactly two hours, and one millisecond less, after [t1]. *)
Definition t_2h : RawTrade := trade "t6" "1600007200000" "BTC-X" 10000 60.
Definition t_2h_less : RawTrade := trade "t7" "1600007199999" "BTC-X" 10000 60.

End Ex.

(** ** Further notions used by the properties of the fetcher *)

(** The answers on which [pick_host] pins the probed host. *)
Definition probe_ok (r : Response) : bool :=
  match r with
  | Status code _ => code =? 200
  | _ => false
  end.


(** The capability state as a stage: unknown, supported, unsupported. *)
Definition cap_rank (o : option bool) : nat :=
  match o with
  | None => 0
  | Some true => 1
  | Some false => 2
  end.

Definition is_http_status_error (e : Exn) : bool :=
  match e with
  | HTTPStatusError _ => true
  | _ => false
  end.

(** The part of [fetch_trades_since] that follows the capability probe. *)
Definition fetch_after_probe (net : Net) (min_ts_ms limit : Z) (k1 : KalshiHTTP)
    : KalshiHTTP * (Exn + list RawTrade) :=
  let params :=
    trades_params limit (if is_true_opt (min_ts_supported k1) then Some min_ts_ms else None) in
  let '(k2, r) := kalshi_get net trades_path params k1 in
  match r with
  | inr data => (k2, inr (extract_trades data))
  | inl (HTTPStatusError code) =>
      if (code =? 400) && is_true_opt (min_ts_supported k2) then
        let k3 := set_min_ts_supported false k2 in
        let '(k4, r') := kalshi_get net trades_path (trades_params limit None) k3 in
        match r' with
        | inr data => (k4, inr (extract_trades data))
        | inl e => (k4, inl e)
        end
      else (k2, inl (HTTPStatusError code))
  | inl e => (k2, inl e)
  end.

(** The rows [ticker_recent_counts_24h] selects: those of the instrument not
    older than 24 hours. *)
Definition recent_rows (d : DB) (now : Z) (ticker : string) : list PrintRow :=
  List.filter (fun r => String.eqb (p_ticker r) ticker && (now - 24 * 3600 * 1000 <=? p_ts_ms r))
              (prints d).

(** ** Further notions used by the properties of the store and the loop *)

(** What holds of every row the loop inserts. *)
Definition row_ok (r : PrintRow) : Prop :=
  (0 < p_notional_usd r)%Q /\ p_trade_id r <> "" /\
  upper (p_ticker r) = p_ticker r /\ p_side r <> "".

(** No two rows of [prints] share a [trade_id]. *)
Definition keys_unique (d : DB) : Prop := NoDup (map p_trade_id (prints d)).

(** The store [d'] is [d] with rows appended, each of them well formed, and
    the key still unique if it was. *)
Definition grows (d d' : DB) : Prop :=
  exists new,
    prints d' = prints d ++ new /\ Forall row_ok new /\ (keys_unique d -> keys_unique d').

(** The rows of [subs] that a trade of the given instrument and notional is
    dispatched to. *)
Definition qualifies (ticker : string) (notional : Q) (s : Sub) : bool :=
  (s_alerts_on s =? 1) && Qle_bool (s_thresh_usd s) notional && topic_match (s_topic s) ticker.

(** ** The [subs] table and the command handlers that write it *)

(** A row as the handlers insert it. *)
Definition sub_row (uid on : Z) (thr : Q) (topic tz : string) : Sub :=
  {| s_user_id := uid; s_alerts_on := on; s_thresh_usd := thr; s_topic := topic; s_tz := tz |}.

Definition with_alerts_on (on : Z) (r : Sub) : Sub :=
  sub_row (s_user_id r) on (s_thresh_usd r) (s_topic r) (s_tz r).
Definition with_thresh (thr : Q) (r : Sub) : Sub :=
  sub_row (s_user_id r) (s_alerts_on r) thr (s_topic r) (s_tz r).
Definition with_topic (topic : string) (r : Sub) : Sub :=
  sub_row (s_user_id r) (s_alerts_on r) (s_thresh_usd r) topic (s_tz r).
Definition with_tz (tz : string) (r : Sub) : Sub :=
  sub_row (s_user_id r) (s_alerts_on r) (s_thresh_usd r) (s_topic r) tz.

(** [INSERT INTO subs ... ON CONFLICT(user_id) DO UPDATE SET ...]: the table
    is keyed by [user_id]. *)
Definition upsert (uid : Z) (fresh : Sub) (update : Sub -> Sub) (t : gmap Z Sub) : gmap Z Sub :=
  match t !! uid with
  | Some r => <[uid := update r]> t
  | None => <[uid := fresh]> t
  end.

Section Handlers.

Variable cfg : Config.

(** Whether [ZoneInfo(tz_arg)] accepts the name. *)
Variable zone_ok : string -> bool.

Definition ensure_sub (uid : Z) (t : gmap Z Sub) : gmap Z Sub :=
  match t !! uid with
  | Some _ => t
  | None => <[uid := sub_row uid 0 (DEFAULT_THRESH cfg) "all" "UTC"]> t
  end.

Definition get_user_prefs (uid : Z) (t : gmap Z Sub) : gmap Z Sub * (Z * Q * string * string) :=
  let t' := ensure_sub uid t in
  (t', match t' !! uid with
       | Some r => (s_alerts_on r, s_thresh_usd r, s_topic r, s_tz r)
       | None => (0, DEFAULT_THRESH cfg, "all", "UTC")
       end).

Definition btn_on (uid : Z) (t : gmap Z Sub) : gmap Z Sub :=
  upsert uid (sub_row uid 1 (DEFAULT_THRESH cfg) "all" "UTC") (with_alerts_on 1) t.

Definition btn_off (uid : Z) (t : gmap Z Sub) : gmap Z Sub :=
  upsert uid (sub_row uid 0 (DEFAULT_THRESH cfg) "all" "UTC") (with_alerts_on 0) t.

(** [handle_thresh_input], [val] being [float(m.text.strip())]. *)
Definition handle_thresh_input (uid : Z) (val : Q) (t : gmap Z Sub) : gmap Z Sub :=
  if negb (Qle_bool 500 val) then t
  else upsert uid (sub_row uid 1 val "all" "UTC") (with_thresh val) t.

Definition set_topic_value (uid : Z) (topic : string) (t : gmap Z Sub) : gmap Z Sub :=
  if negb (existsb (String.eqb topic) ["macro"; "crypto"; "sports"; "all"]) then t
  else upsert uid (sub_row uid 1 (DEFAULT_THRESH cfg) topic "UTC") (with_topic topic) t.

Definition set_timezone_value (uid : Z) (tz_arg : string) (t : gmap Z Sub) : gmap Z Sub :=
  if negb (zone_ok tz_arg) then t
  else upsert uid (sub_row uid 0 (DEFAULT_THRESH cfg) "all" tz_arg) (with_tz tz_arg) t.

(** The writes a user can cause: the two alert buttons, a threshold, a topic,
    a time zone, and any command that reads the preferences
    ([get_user_prefs]: recent, top, [/tz]). *)
Inductive Command :=
| CmdOn
| CmdOff
| CmdThresh (val : Q)
| CmdTopic (topic : string)
| CmdTz (tz_arg : string)
| CmdPrefs.

Definition handle (uid : Z) (c : Command) (t : gmap Z Sub) : gmap Z Sub :=
  match c with
  | CmdOn => btn_on uid t
  | CmdOff => btn_off uid t
  | CmdThresh val => handle_thresh_input uid val t
  | CmdTopic topic => set_topic_value uid topic t
  | CmdTz tz_arg => set_timezone_value uid tz_arg t
  | CmdPrefs => fst (get_user_prefs uid t)
  end.

Definition run_commands (cmds : list (Z * Command)) (t : gmap Z Sub) : gmap Z Sub :=
  fold_left (fun t0 '(uid, c) => handle uid c t0) cmds t.

(** What holds of every row the handlers write. *)
Definition sub_ok (uid : Z) (r : Sub) : Prop :=
  s_user_id r = uid /\
  (s_alerts_on r = 0 \/ s_alerts_on r = 1) /\
  In (s_topic r) ["all"; "macro"; "crypto"; "sports"] /\
  (s_thresh_usd r = DEFAULT_THRESH cfg \/ (500 <= s_thresh_usd r)%Q).

Definition table_ok (t : gmap Z Sub) : Prop :=
  forall uid r, t !! uid = Some r -> sub_ok uid r.

(** Whether a command is turned down without a write. *)
Definition rejected (c : Command) : bool :=
  match c with
  | CmdThresh val => negb (Qle_bool 500 val)
  | CmdTopic topic => negb (existsb (String.eqb topic) ["macro"; "crypto"; "sports"; "all"])
  | CmdTz tz_arg => negb (zone_ok tz_arg)
  | _ => false
  end.

End Handlers.

(** [load_subscribers]: the rows of the table (SQL leaves their order
    open). *)
Definition load_subscribers (t : gmap Z Sub) : list Sub := map snd (map_to_list t).

(** ** The query of [show_recent] *)

(** [SELECT ... FROM prints WHERE notional_usd>=? ORDER BY ts_ms DESC LIMIT 10] *)
Definition recent_whales (d : DB) (thr : Q) : list PrintRow :=
  take 10 (merge_sort newer_first
             (List.filter (fun r => Qle_bool thr (p_notional_usd r)) (prints d))).

(** ** Concrete data for the further examples *)

Module Ex2.

(** An upstream on which every host answers 503. *)
Definition net_down : Net := fun _ _ => Status 503 None.

(** An upstream whose hosts raise an exception outside the network classes. *)
Definition net_broken : Net := fun _ _ => OtherFailure.

(** An upstream that answers 200 with a body that is not JSON. *)
Definition net_not_json : Net := fun _ _ => Status 200 None.

(** The fetcher before any host is pinned, with only the configured base
    URL as host. *)
Definition own_url : Config :=
  {| PRIMARY := "https://proxy.example/trade-api/v2"; KALSHI_BASE_URL_set := true;
     DEFAULT_THRESH := 5000%Q |}.

(** A trade whose [yes_price] is present with [null] while [price] holds 60. *)
Definition t_null_yes_price : RawTrade :=
  {| tr_id := Some "n1"; tr_trade_id := None; tr_ticker := Some "BTC-X"; tr_market := None;
     tr_created_time := Some "1600000000000"; tr_ts := None; tr_side := Some "yes";
     tr_direction := None; tr_count := Some 10000; tr_size := None;
     tr_yes_price_dollars := None; tr_yes_price := Some None; tr_price := Some (Some 60%Q) |}.

(** A trade priced in dollars and, differently, in cents. *)
Definition t_dollars : RawTrade :=
  {| tr_id := Some "d1"; tr_trade_id := None; tr_ticker := Some "BTC-X"; tr_market := None;
     tr_created_time := Some "1600000000000"; tr_ts := None; tr_side := Some "yes";
     tr_direction := None; tr_count := Some 100; tr_size := None;
     tr_yes_price_dollars := Some (Some (3 # 4)%Q); tr_yes_price := Some (Some 60%Q);
     tr_price := None |}.


(** A subscriber with given preferences. *)
Definition sub (uid on : Z) (thr : Q) (topic : string) : Sub :=
  {| s_user_id := uid; s_alerts_on := on; s_thresh_usd := thr; s_topic := topic; s_tz := "UTC" |}.

(** The store after the loop has seen [t1], [t2] and [t3]. *)
Definition three_rows : DB :=
  db (ingest_cycle Ex.cfg Ex.iso
        (Ex.env (Ex.net_ok [Ex.t1; Ex.t2; Ex.t3]) [] Ex.delivers)
        (Ex.loop (Some false) 1500000000000)).

(** Three sizes, in two orders. *)
Definition sizes : list Z := [3; 1; 2].
Definition sizes' : list Z := [2; 3; 1].

(** Every time zone name is taken as valid. *)
Definition any_zone (tz : string) : bool := true.

End Ex2.

(** * Properties *)

(** ** The fetcher: host failover *)

Lemma with_sent_nil k : with_sent k [] = k.
Proof. destruct k; unfold with_sent; simpl. by rewrite app_nil_r. Qed.

Lemma with_sent_app k l1 l2 : with_sent (with_sent k l1) l2 = with_sent k (l1 ++ l2).
Proof. unfold with_sent; simpl. by rewrite app_assoc. Qed.

Lemma try_hosts_skip net path params pinned pre :
  forall rest last_err k,
    (forall i h', pre !! i = Some h' ->
       fails_over (net (length (sent k) + i)%nat (mk_request h' path params)) = true) ->
    exists last_err',
      try_hosts net path params pinned (pre ++ rest) last_err k =
      try_hosts net path params pinned rest last_err'
        (with_sent k (map (fun h' => mk_request h' path params) pre)).
Proof.
  induction pre as [|h0 pre IH]; intros rest last_err k Hpre.
  - exists last_err. simpl. by rewrite with_sent_nil.
  - pose proof (Hpre 0%nat h0 eq_refl) as H0.
    rewrite Nat.add_0_r in H0.
    cbn [app try_hosts]. unfold client_get.
    destruct (net (length (sent k)) (mk_request h0 path params)) as [code body| |] eqn:Hr;
      simpl in H0; try discriminate.
    + rewrite H0.
      destruct (IH rest (Some (ServerError code)) (with_sent k [mk_request h0 path params])) as [e He].
      { intros i h' Hi. simpl. rewrite length_app. simpl.
        replace (length (sent k) + 1 + i)%nat with (length (sent k) + S i)%nat by lia.
        by apply Hpre. }
      exists e. rewrite He. by rewrite with_sent_app.
    + destruct (IH rest (Some NetworkError) (with_sent k [mk_request h0 path params])) as [e He].
      { intros i h' Hi. simpl. rewrite length_app. simpl.
        replace (length (sent k) + 1 + i)%nat with (length (sent k) + S i)%nat by lia.
        by apply Hpre. }
      exists e. rewrite He. by rewrite with_sent_app.
Qed.

Lemma set_host_pinned k h : host k = Some h -> set_host h k = k.
Proof. destruct k; simpl; intros ->; reflexivity. Qed.

Lemma resilient_get_pinned net path params k h :
  host k = Some h ->
  resilient_get net path params k =
  try_hosts net path params h (host_order h (hosts k)) None k.
Proof. intros Hh. unfold resilient_get. rewrite Hh. cbv beta iota zeta. by rewrite Hh. Qed.

Lemma try_hosts_sent_grows net path params pinned order :
  forall last_err k,
    exists rest, sent (fst (try_hosts net path params pinned order last_err k)) = sent k ++ rest.
Proof.
  induction order as [|h0 order IH]; intros last_err k; cbn [try_hosts].
  - exists []. by rewrite app_nil_r.
  - unfold client_get.
    destruct (net (length (sent k)) (mk_request h0 path params)) as [code body| |].
    + destruct (500 <=? code).
      * destruct (IH (Some (ServerError code)) (with_sent k [mk_request h0 path params])) as [r Hr].
        exists (mk_request h0 path params :: r). rewrite Hr. simpl. by rewrite <- app_assoc.
      * destruct (is_success code); [|by eexists].
        destruct (String.eqb h0 pinned), body; by eexists.
    + destruct (IH (Some NetworkError) (with_sent k [mk_request h0 path params])) as [r Hr].
      exists (mk_request h0 path params :: r). rewrite Hr. simpl. by rewrite <- app_assoc.
    + by eexists.
Qed.

(** The first request of a call goes to the pinned host. *)
Lemma resilient_get_first_request net path params k h :
  host k = Some h ->
  exists rest,
    sent (fst (resilient_get net path params k)) = sent k ++ mk_request h path params :: rest.
Proof.
  intros Hh. rewrite (resilient_get_pinned _ _ _ _ _ Hh). cbn [host_order try_hosts].
  unfold client_get. cbv beta iota zeta.
  set (others := List.filter (fun h0 => negb (String.eqb h0 h)) (hosts k)).
  destruct (net (length (sent k)) (mk_request h path params)) as [code body| |].
  - destruct (500 <=? code).
    + destruct (try_hosts_sent_grows net path params h others
                  (Some (ServerError code)) (with_sent k [mk_request h path params])) as [r Hr].
      exists r. rewrite Hr. simpl. by rewrite <- app_assoc.
    + destruct (is_success code); [|by eexists].
      rewrite String.eqb_refl. destruct body; by eexists.
  - destruct (try_hosts_sent_grows net path params h others
                (Some NetworkError) (with_sent k [mk_request h path params])) as [r Hr].
    exists r. rewrite Hr. simpl. by rewrite <- app_assoc.
  - by eexists.
Qed.

(** X30.  Take any [resilient_get] call; [k0] is the fetcher once a host is
    pinned ([pick_host] runs first when none is), and [p] that host.  Let the
    hosts tried before [h] all answer with a 5xx status or raise one of
    [httpx.ConnectError], [httpx.ReadTimeout] and [httpx.NetworkError].
    Then no error surfaces for them and [h] is asked next; if [h]
    answers with a success status and a JSON body, the call returns that
    body and [h] is the pinned host afterwards, so that the next call asks
    [h] first; if [h] answers with a 4xx status, the call raises the HTTP
    status error at once, having asked no further host, and the pinned host
    is unchanged. *)
Theorem resilient_get_failover net path params k p pre h post :
  let k0 := match host k with None => pick_host net k | Some _ => k end in
  host k0 = Some p ->
  host_order p (hosts k0) = pre ++ h :: post ->
  (forall i h', pre !! i = Some h' ->
     fails_over (net (length (sent k0) + i)%nat (mk_request h' path params)) = true) ->
  let asked := map (fun h' => mk_request h' path params) (pre ++ [h]) in
  let answer := net (length (sent k0) + length pre)%nat (mk_request h path params) in
  (forall code j, answer = Status code (Some j) -> is_success code = true ->
     resilient_get net path params k = (set_host h (with_sent k0 asked), inr j) /\
     forall net' path' params', exists rest,
       sent (fst (resilient_get net' path' params' (set_host h (with_sent k0 asked)))) =
       sent k0 ++ asked ++ mk_request h path' params' :: rest) /\
  (forall code body, answer = Status code body -> 400 <= code < 500 ->
     resilient_get net path params k = (with_sent k0 asked, inl (HTTPStatusError code)) /\
     host (with_sent k0 asked) = Some p).
Proof.
  intros k0 Hp Horder Hpre asked answer.
  assert (Hstart : exists last_err,
    resilient_get net path params k =
    try_hosts net path params p (h :: post) last_err
      (with_sent k0 (map (fun h' => mk_request h' path params) pre))).
  { unfold resilient_get. fold k0. cbv zeta. rewrite Hp. cbn [or_else]. rewrite Horder.
    by apply try_hosts_skip. }
  destruct Hstart as [last_err Hstart].
  assert (Hlen : length (sent (with_sent k0 (map (fun h' => mk_request h' path params) pre)))
                 = (length (sent k0) + length pre)%nat).
  { simpl. by rewrite length_app, length_map. }
  assert (Hasked : with_sent (with_sent k0 (map (fun h' => mk_request h' path params) pre))
                     [mk_request h path params] = with_sent k0 asked).
  { rewrite with_sent_app. unfold asked. by rewrite map_app. }
  split.
  - intros code j Hans Hok. split.
    + rewrite Hstart. cbn [try_hosts]. unfold client_get. rewrite Hlen. fold answer. rewrite Hans.
      assert ((500 <=? code) = false) as ->.
      { unfold is_success in Hok. apply andb_true_iff in Hok as [_ Hlt]. lia. }
      rewrite Hok, Hasked.
      destruct (String.eqb_spec h p) as [->|Hne]; [|done].
      rewrite set_host_pinned; [done|]. by simpl.
    + intros net' path' params'.
      destruct (resilient_get_first_request net' path' params' (set_host h (with_sent k0 asked)) h eq_refl)
        as [rest Hrest].
      exists rest. rewrite Hrest. simpl. by rewrite <- app_assoc.
  - intros code body Hans Hcode. split; [|by simpl].
    rewrite Hstart. cbn [try_hosts]. unfold client_get. rewrite Hlen. fold answer. rewrite Hans.
    assert ((500 <=? code) = false) as -> by lia.
    assert (is_success code = false) as -> by (unfold is_success; lia).
    by rewrite Hasked.
Qed.

(** ** The fetcher: the [min_ts] capability *)

Lemma try_hosts_log net path params pinned order :
  forall last_err k,
    exists new,
      sent (fst (try_hosts net path params pinned order last_err k)) = sent k ++ new /\
      Forall (fun rq => rq_params rq = params) new /\
      min_ts_supported (fst (try_hosts net path params pinned order last_err k)) = min_ts_supported k.
Proof.
  induction order as [|h0 order IH]; intros last_err k; cbn [try_hosts].
  - exists []. by rewrite app_nil_r.
  - unfold client_get.
    assert (Hone : forall e,
      exists new,
        sent (fst (try_hosts net path params pinned order e (with_sent k [mk_request h0 path params])))
          = sent k ++ new /\
        Forall (fun rq => rq_params rq = params) new /\
        min_ts_supported (fst (try_hosts net path params pinned order e
                                 (with_sent k [mk_request h0 path params]))) = min_ts_supported k).
    { intros e. destruct (IH e (with_sent k [mk_request h0 path params])) as (new & Hs & Hf & Hm).
      exists (mk_request h0 path params :: new). rewrite Hs, Hm. simpl.
      rewrite <- app_assoc. split_and!; [done | by constructor | done]. }
    assert (Hstop : exists new,
        sent (with_sent k [mk_request h0 path params]) = sent k ++ new /\
        Forall (fun rq => rq_params rq = params) new).
    { exists [mk_request h0 path params]. split; [done | by repeat constructor]. }
    destruct Hstop as (new0 & Hs0 & Hf0).
    destruct (net (length (sent k)) (mk_request h0 path params)) as [code body| |].
    + destruct (500 <=? code); [apply Hone|].
      destruct (is_success code); [|by exists new0].
      destruct (String.eqb h0 pinned), body; by exists new0.
    + apply Hone.
    + by exists new0.
Qed.

Lemma pick_host_loop_log net hs :
  forall k,
    exists new,
      sent (fst (pick_host_loop net hs k)) = sent k ++ new /\
      Forall (fun rq => rq_params rq = probe_params) new /\
      min_ts_supported (fst (pick_host_loop net hs k)) = min_ts_supported k.
Proof.
  induction hs as [|h0 hs IH]; intros k; cbn [pick_host_loop].
  - exists []. by rewrite app_nil_r.
  - unfold client_get.
    assert (Hnext : exists new,
        sent (fst (pick_host_loop net hs (with_sent k [mk_request h0 "/markets" probe_params])))
          = sent k ++ new /\
        Forall (fun rq => rq_params rq = probe_params) new /\
        min_ts_supported (fst (pick_host_loop net hs
                                 (with_sent k [mk_request h0 "/markets" probe_params])))
          = min_ts_supported k).
    { destruct (IH (with_sent k [mk_request h0 "/markets" probe_params])) as (new & Hs & Hf & Hm).
      exists (mk_request h0 "/markets" probe_params :: new). rewrite Hs, Hm. simpl.
      rewrite <- app_assoc. split_and!; [done | by constructor | done]. }
    destruct (net (length (sent k)) (mk_request h0 "/markets" probe_params)) as [code body| |];
      try apply Hnext.
    destruct (code =? 200); [|apply Hnext].
    exists [mk_request h0 "/markets" probe_params]. simpl.
    split_and!; [done | by repeat constructor | done].
Qed.

Lemma pick_host_loop_found net hs :
  forall k k1, pick_host_loop net hs k = (k1, true) -> is_Some (host k1).
Proof.
  induction hs as [|h0 hs IH]; intros k k1 Hloop; cbn [pick_host_loop] in Hloop.
  - discriminate.
  - unfold client_get in Hloop.
    destruct (net (length (sent k)) (mk_request h0 "/markets" probe_params)) as [code body| |];
      try by eapply IH.
    destruct (code =? 200); [|by eapply IH].
    inversion Hloop; subst. by eexists.
Qed.

Lemma pick_host_log net k :
  exists new,
    sent (pick_host net k) = sent k ++ new /\
    Forall (fun rq => rq_params rq = probe_params) new /\
    min_ts_supported (pick_host net k) = min_ts_supported k /\
    is_Some (host (pick_host net k)).
Proof.
  unfold pick_host.
  destruct (pick_host_loop_log net (hosts k) k) as (new & Hs & Hf & Hm).
  destruct (pick_host_loop net (hosts k) k) as [k1 found] eqn:Hloop. simpl in *.
  exists new. destruct found.
  - split_and!; try done. by eapply pick_host_loop_found.
  - simpl. split_and!; done.
Qed.

(** A host is always pinned when the hosts are tried. *)
Lemma resilient_get_host_pinned net k :
  is_Some (host (match host k with None => pick_host net k | Some _ => k end)).
Proof.
  destruct (host k) eqn:Hk; [by rewrite Hk|].
  by destruct (pick_host_log net k) as (_ & _ & _ & _ & H).
Qed.

(** Every request of a [resilient_get] call carries the call's parameters or
    is a host probe, and the call never touches the capability state. *)
Lemma resilient_get_log net path params k :
  exists new,
    sent (fst (resilient_get net path params k)) = sent k ++ new /\
    Forall (fun rq => rq_params rq = params \/ rq_params rq = probe_params) new /\
    min_ts_supported (fst (resilient_get net path params k)) = min_ts_supported k.
Proof.
  unfold resilient_get.
  set (k0 := match host k with None => pick_host net k | Some _ => k end).
  assert (H0 : exists new0, sent k0 = sent k ++ new0 /\
             Forall (fun rq => rq_params rq = probe_params) new0 /\
             min_ts_supported k0 = min_ts_supported k).
  { unfold k0. destruct (host k).
    - exists []. by rewrite app_nil_r.
    - destruct (pick_host_log net k) as (new & Hs & Hf & Hm & _). by exists new. }
  destruct H0 as (new0 & Hs0 & Hf0 & Hm0).
  cbv zeta.
  destruct (try_hosts_log net path params (or_else (host k0) FALLBACK)
              (host_order (or_else (host k0) FALLBACK) (hosts k0)) None k0) as (new & Hs & Hf & Hm).
  exists (new0 ++ new). rewrite Hs, Hm, Hs0, Hm0, <- app_assoc. repeat split.
  apply Forall_app. split.
  - eapply Forall_impl; [exact Hf0|]. simpl. tauto.
  - eapply Forall_impl; [exact Hf|]. simpl. tauto.
Qed.

(** Once the capability is unsupported, a fetch is one unfiltered
    [KALSHI.get]. *)
Lemma fetch_unsupported net min_ts_ms limit k :
  min_ts_supported k = Some false ->
  fetch_trades_since net min_ts_ms limit k =
  (fst (kalshi_get net trades_path (trades_params limit None) k),
   lift_trades (snd (kalshi_get net trades_path (trades_params limit None) k))).
Proof.
  intros Hk. unfold fetch_trades_since, probe_min_ts. rewrite Hk.
  cbv beta iota zeta. rewrite Hk. cbn [is_true_opt].
  destruct (resilient_get_log net trades_path (trades_params limit None) k) as (_ & _ & _ & Hm).
  unfold kalshi_get in *.
  destruct (resilient_get net trades_path (trades_params limit None) k) as [k2 r]. simpl in Hm.
  destruct r as [e|data]; [|reflexivity].
  destruct e; try reflexivity.
  rewrite Hm, Hk. cbn [is_true_opt]. by rewrite andb_false_r.
Qed.

Lemma fetch_unsupported_log net min_ts_ms limit k :
  min_ts_supported k = Some false ->
  min_ts_supported (fst (fetch_trades_since net min_ts_ms limit k)) = Some false /\
  exists new,
    sent (fst (fetch_trades_since net min_ts_ms limit k)) = sent k ++ new /\
    Forall omits_filter new.
Proof.
  intros Hk. rewrite (fetch_unsupported _ _ _ _ Hk). cbn [fst].
  destruct (resilient_get_log net trades_path (trades_params limit None) k) as (new & Hs & Hf & Hm).
  unfold kalshi_get. split; [by rewrite Hm|].
  exists new. split; [done|].
  eapply Forall_impl; [exact Hf|]. unfold omits_filter. intros rq [-> | ->]; reflexivity.
Qed.

Lemma run_call_unsupported net c k :
  min_ts_supported k = Some false ->
  min_ts_supported (run_call net c k) = Some false /\
  exists new, sent (run_call net c k) = sent k ++ new /\ Forall omits_filter new.
Proof.
  intros Hk. destruct c as [min_ts_ms limit|ticker|]; cbn [run_call].
  - by apply fetch_unsupported_log.
  - destruct (resilient_get_log net (String.append "/markets/" ticker) no_params k)
      as (new & Hs & Hf & Hm).
    unfold kalshi_get. split; [by rewrite Hm|]. exists new. split; [done|].
    eapply Forall_impl; [exact Hf|]. unfold omits_filter. intros rq [-> | ->]; reflexivity.
  - destruct (resilient_get_log net "/markets" probe_params k) as (new & Hs & Hf & Hm).
    unfold kalshi_get. split; [by rewrite Hm|]. exists new. split; [done|].
    eapply Forall_impl; [exact Hf|]. unfold omits_filter. intros rq [-> | ->]; reflexivity.
Qed.

Lemma run_calls_unsupported calls :
  forall k,
    min_ts_supported k = Some false ->
    min_ts_supported (run_calls calls k) = Some false /\
    exists new, sent (run_calls calls k) = sent k ++ new /\ Forall omits_filter new.
Proof.
  induction calls as [|[net c] calls IH]; intros k Hk.
  - split; [done|]. exists []. by rewrite app_nil_r.
  - cbn [run_calls fold_left].
    destruct (run_call_unsupported net c k Hk) as (Hk1 & new1 & Hs1 & Hf1).
    destruct (IH _ Hk1) as (Hk2 & new2 & Hs2 & Hf2).
    unfold run_calls in *. split; [done|].
    exists (new1 ++ new2). rewrite Hs2, Hs1, <- app_assoc. split; [done|].
    by apply Forall_app.
Qed.

(** C7.  Let the capability state be "supported" and let the filtered
    [KALSHI.get] of a [fetch_trades_since] call raise the HTTP status error
    400.  Then the call sets the state to "unsupported", issues exactly one
    more [KALSHI.get], without the filter, and returns whatever that retry
    returns or raises.  From then on, through any further calls of the
    fetcher (trade fetches, title lookups, health checks), the state stays
    "unsupported" and every request sent omits the filter. *)
Theorem capability_downgrade net min_ts_ms limit k k1 :
  min_ts_supported k = Some true ->
  kalshi_get net trades_path (trades_params limit (Some min_ts_ms)) k
    = (k1, inl (HTTPStatusError 400)) ->
  let retry := kalshi_get net trades_path (trades_params limit None)
                 (set_min_ts_supported false k1) in
  let after := fst (fetch_trades_since net min_ts_ms limit k) in
  fetch_trades_since net min_ts_ms limit k = (fst retry, lift_trades (snd retry)) /\
  min_ts_supported after = Some false /\
  forall calls,
    min_ts_supported (run_calls calls after) = Some false /\
    exists new, sent (run_calls calls after) = sent after ++ new /\ Forall omits_filter new.
Proof.
  intros Hk Hget retry after.
  assert (Hk1 : min_ts_supported k1 = Some true).
  { destruct (resilient_get_log net trades_path (trades_params limit (Some min_ts_ms)) k)
      as (_ & _ & _ & Hm).
    unfold kalshi_get in Hget. rewrite Hget in Hm. simpl in Hm. congruence. }
  assert (Heq : fetch_trades_since net min_ts_ms limit k = (fst retry, lift_trades (snd retry))).
  { unfold fetch_trades_since, probe_min_ts. rewrite Hk.
    cbv beta iota zeta. rewrite Hk. cbn [is_true_opt].
    rewrite Hget. cbn [Z.eqb Pos.eqb andb]. rewrite Hk1. cbn [is_true_opt].
    fold retry. by destruct retry as [k4 [e|data]]. }
  assert (Hafter : min_ts_supported after = Some false).
  { unfold after. rewrite Heq. cbn [fst]. unfold retry.
    destruct (resilient_get_log net trades_path (trades_params limit None)
                (set_min_ts_supported false k1)) as (_ & _ & _ & Hm).
    unfold kalshi_get. by rewrite Hm. }
  split_and!; [done | done |].
  intros calls. by apply run_calls_unsupported.
Qed.

(** ** The durable store *)

Lemma has_trade_id_app db row trade_id :
  has_trade_id {| prints := prints db ++ [row]; stats := stats db; meta := meta db |} trade_id
  = has_trade_id db trade_id || String.eqb (p_trade_id row) trade_id.
Proof. unfold has_trade_id. simpl. rewrite existsb_app. simpl. by rewrite orb_false_r. Qed.

Lemma rows_with_id_absent db trade_id :
  has_trade_id db trade_id = false -> rows_with_id db trade_id = [].
Proof.
  unfold has_trade_id, rows_with_id. induction (prints db) as [|r rows IH]; simpl; [done|].
  intros H. apply orb_false_iff in H as [Hr Hrows]. rewrite Hr. by apply IH.
Qed.

Lemma store_print_cases db trade_id ts_ms ticker side count yes_cents notional flags :
  let row := print_row trade_id ts_ms ticker side count yes_cents notional flags in
  (has_trade_id db trade_id = true /\
   store_print db trade_id ts_ms ticker side count yes_cents notional flags = db) \/
  (has_trade_id db trade_id = false /\
   store_print db trade_id ts_ms ticker side count yes_cents notional flags
   = {| prints := prints db ++ [row]; stats := stats db; meta := meta db |}).
Proof.
  intros row. unfold store_print, insert_print. cbn [print_row p_trade_id].
  destruct (has_trade_id db trade_id); [by left | by right].
Qed.

(** C5.  Two [store_print] calls with the same [trade_id]: the second
    [INSERT] raises the integrity error, which [store_print] swallows, and
    leaves the store exactly as the first call left it; the rows stored
    under that [trade_id] are then the single row of the first call (or, when
    the [trade_id] was already stored before both calls, the rows that were
    there). *)
Theorem store_print_same_trade_id db trade_id
    ts1 ticker1 side1 count1 yes1 notional1 flags1
    ts2 ticker2 side2 count2 yes2 notional2 flags2 :
  let row1 := print_row trade_id ts1 ticker1 side1 count1 yes1 notional1 flags1 in
  let row2 := print_row trade_id ts2 ticker2 side2 count2 yes2 notional2 flags2 in
  let db1 := store_print db trade_id ts1 ticker1 side1 count1 yes1 notional1 flags1 in
  let db2 := store_print db1 trade_id ts2 ticker2 side2 count2 yes2 notional2 flags2 in
  insert_print db1 row2 = inl UniqueViolation /\
  db2 = db1 /\
  rows_with_id db2 trade_id
  = if has_trade_id db trade_id then rows_with_id db trade_id else [row1].
Proof.
  intros row1 row2 db1 db2.
  assert (Hin : has_trade_id db1 trade_id = true).
  { unfold db1.
    destruct (store_print_cases db trade_id ts1 ticker1 side1 count1 yes1 notional1 flags1)
      as [[Hh ->]|[Hh ->]]; [done|].
    rewrite has_trade_id_app. cbn [print_row p_trade_id]. rewrite String.eqb_refl.
    by rewrite orb_true_r. }
  assert (H2 : db2 = db1).
  { unfold db2.
    destruct (store_print_cases db1 trade_id ts2 ticker2 side2 count2 yes2 notional2 flags2)
      as [[_ ->]|[Hh _]]; [done | congruence]. }
  split_and!.
  - unfold insert_print, row2. cbn [print_row p_trade_id]. by rewrite Hin.
  - done.
  - rewrite H2. unfold db1.
    destruct (store_print_cases db trade_id ts1 ticker1 side1 count1 yes1 notional1 flags1)
      as [[Hh ->]|[Hh ->]]; rewrite Hh; [done|].
    unfold rows_with_id. cbn [prints]. rewrite List.filter_app.
    fold (rows_with_id db trade_id). rewrite (rows_with_id_absent _ _ Hh).
    cbn [List.filter app print_row p_trade_id]. by rewrite String.eqb_refl.
Qed.

(** ** The loop body *)

Section Loop_body.

Variable cfg : Config.
Variable iso_to_ms : string -> option Z.


(** The loop body, with the tuples taken apart. *)
Lemma process_trade_unfold now send active tr b :
  let f := trade_core_fields iso_to_ms now tr in
  let notional := trade_notional_usd tr in
  let r := tag_and_store cfg now (b_db b) (core_trade_id f) (core_ts_ms f) (core_ticker f)
             (core_side f) (core_count f) (core_yes_cents f) notional in
  let d := dispatch send active (core_ticker f) (core_side f) notional (core_count f)
             (core_yes_cents f) (core_ts_ms f) r.2 (b_out b) in
  process_trade cfg iso_to_ms now send active tr b =
  if Qle_bool notional 0 then (b, false)
  else if d.2 then ({| b_db := r.1.1; b_out := d.1; b_max_seen := b_max_seen b |}, true)
  else ({| b_db := r.1.1; b_out := d.1;
           b_max_seen := Z.max (b_max_seen b) (core_ts_ms f) |}, false).
Proof.
  unfold process_trade.
  destruct (trade_core_fields iso_to_ms now tr) as [[[[[trade_id ts_ms] ticker] side] count] yes_cents].
  cbn [core_trade_id core_ts_ms core_ticker core_side core_count core_yes_cents].
  cbv zeta.
  destruct (Qle_bool (trade_notional_usd tr) 0); [done|].
  destruct (tag_and_store cfg now (b_db b) trade_id ts_ms ticker side count yes_cents
              (trade_notional_usd tr)) as [[db2 stored] flags].
  cbn [fst snd].
  destruct (dispatch send active ticker side (trade_notional_usd tr) count yes_cents ts_ms
              flags (b_out b)) as [out1 raised].
  cbn [fst snd]. destruct raised; [done|].
  do 2 f_equal. destruct (Z.gtb_spec ts_ms (b_max_seen b)); lia.
Qed.

(** What [tag_and_store] does to the store, and the tags it computes. *)
Lemma tag_and_store_spec now d trade_id ts_ms ticker side count yes_cents notional :
  let r := tag_and_store cfg now d trade_id ts_ms ticker side count yes_cents notional in
  let prev := last_trade_ts_for_ticker d ticker in
  stats r.1.1 = <[ticker := ts_ms]> (stats d) /\
  meta r.1.1 = meta d /\
  ((has_trade_id d trade_id = true /\ prints r.1.1 = prints d) \/
   (has_trade_id d trade_id = false /\
    prints r.1.1 = prints d ++ [print_row trade_id ts_ms ticker side count yes_cents notional r.1.2])) /\
  In (join_flags r.1.2) stored_flags /\
  ~ In "Accumulation" r.1.2 /\
  (In "Silent-breaker" r.1.2 <-> prev <> 0 /\ 7200000 <= ts_ms - prev) /\
  (In "Silent-breaker" r.2 <-> prev <> 0 /\ 7200000 <= ts_ms - prev).
Proof.
  unfold tag_and_store. cbv zeta. cbn [fst snd].
  set (prev := last_trade_ts_for_ticker d ticker).
  set (d1 := update_last_trade_ts d ticker ts_ms).
  set (sb := negb (prev =? 0) && (2 * 3600 * 1000 <=? ts_ms - prev)).
  set (med := median (ticker_recent_counts_24h d1 now ticker)).
  set (us := negb (Qle_bool med 0) && Qle_bool (5 * med) (inject_Z count)).
  set (flags1 := if sb then [] ++ ["Silent-breaker"] else []).
  set (flags2 := if us then flags1 ++ ["Unusual size"] else flags1).
  assert (Hsb : sb = true <-> prev <> 0 /\ 7200000 <= ts_ms - prev).
  { unfold sb. rewrite andb_true_iff, negb_true_iff. lia. }
  assert (H2 : In "Silent-breaker" flags2 <-> sb = true).
  { unfold flags2, flags1. destruct sb, us; simpl; intuition congruence. }
  split_and!.
  - destruct (store_print_cases d1 trade_id ts_ms ticker side count yes_cents notional flags2)
      as [[_ ->]|[_ ->]]; reflexivity.
  - destruct (store_print_cases d1 trade_id ts_ms ticker side count yes_cents notional flags2)
      as [[_ ->]|[_ ->]]; reflexivity.
  - destruct (store_print_cases d1 trade_id ts_ms ticker side count yes_cents notional flags2)
      as [[Hh ->]|[Hh ->]]; [left | right]; by split.
  - unfold flags2, flags1, stored_flags. destruct sb, us; simpl; tauto.
  - unfold flags2, flags1. destruct sb, us; simpl; intuition congruence.
  - by rewrite H2.
  - rewrite <- Hsb, <- H2.
    destruct (3 <=? _); [|done].
    rewrite in_app_iff. simpl. intuition congruence.
Qed.

(** Brings the facts about the [tag_and_store] call of the goal in as [H]. *)
Ltac tag_spec H :=
  match goal with
  | |- context [tag_and_store ?c ?n ?d ?i ?t ?k ?s ?cn ?y ?q] =>
      pose proof (tag_and_store_spec n d i t k s cn y q) as H
  end.

Lemma dispatch_log send active ticker side notional count yes_cents ts_ms flags :
  forall out,
    exists new,
      (dispatch send active ticker side notional count yes_cents ts_ms flags out).1 = out ++ new /\
      Forall (fun p => a_flags p.1 = flags) new.
Proof.
  induction active as [|[[[uid thr] top] tz] active IH]; intros out; cbn [dispatch].
  - exists []. by rewrite app_nil_r.
  - destruct (Qle_bool thr notional && topic_match top ticker); [|apply IH].
    unfold notify_user. cbn [a_uid].
    set (al := {| a_uid := uid; a_ticker := ticker; a_side := side; a_notional := notional;
                  a_count := count; a_yes_cents := yes_cents; a_ts_ms := ts_ms;
                  a_flags := flags; a_tz := tz |}).
    destruct (send uid).
    + destruct (IH (out ++ [(al, Delivered)])) as (new & Hn & Hf).
      exists ((al, Delivered) :: new). rewrite Hn, <- app_assoc. split; [done|]. by constructor.
    + destruct (IH (out ++ [(al, RaisesTelegramNetworkError)])) as (new & Hn & Hf).
      exists ((al, RaisesTelegramNetworkError) :: new). rewrite Hn, <- app_assoc.
      split; [done|]. by constructor.
    + exists [(al, RaisesOther)]. split; [done|]. by repeat constructor.
Qed.

Lemma process_trade_meta now send active tr b :
  meta (b_db (process_trade cfg iso_to_ms now send active tr b).1) = meta (b_db b).
Proof.
  rewrite process_trade_unfold. cbv zeta.
  destruct (Qle_bool (trade_notional_usd tr) 0); [done|].
  tag_spec Hspec. destruct Hspec as (_ & Hm & _).
  by destruct (dispatch _ _ _ _ _ _ _ _ _ _).2.
Qed.

Lemma process_trades_meta env active trades :
  forall i b,
    meta (b_db (process_trades cfg iso_to_ms env active i trades b).1) = meta (b_db b).
Proof.
  induction trades as [|tr trades IH]; intros i b; cbn [process_trades]; [done|].
  pose proof (process_trade_meta (e_now env i) (e_send env i) active tr b) as Hm.
  destruct (process_trade cfg iso_to_ms (e_now env i) (e_send env i) active tr b) as [b1 raised].
  destruct raised; [done|]. rewrite IH. exact Hm.
Qed.

(** When no exception leaves the pass, [max_seen] ends as the maximum of
    its initial value and the timestamps of the trades that passed the
    notional gate. *)
Lemma process_trades_max_seen env active trades :
  forall i b b',
    process_trades cfg iso_to_ms env active i trades b = (b', false) ->
    b_max_seen b' = fold_left Z.max (processed_timestamps iso_to_ms env i trades) (b_max_seen b).
Proof.
  induction trades as [|tr trades IH]; intros i b b' Hrun;
    cbn [process_trades processed_timestamps] in *.
  - by inversion Hrun.
  - rewrite process_trade_unfold in Hrun. cbv zeta in Hrun.
    destruct (Qle_bool (trade_notional_usd tr) 0); [by apply IH|].
    destruct (dispatch _ _ _ _ _ _ _ _ _ _).2; [discriminate|].
    cbn [fold_left]. by rewrite (IH _ _ _ Hrun).
Qed.

Lemma fold_max_ge l : forall w, w <= fold_left Z.max l w.
Proof. induction l as [|x l IH]; intros w; simpl; [lia|]. specialize (IH (Z.max w x)). lia. Qed.

Lemma fold_max_bound l : forall w, Forall (fun t => t <= fold_left Z.max l w) l.
Proof.
  induction l as [|x l IH]; intros w; simpl; constructor.
  - pose proof (fold_max_ge l (Z.max w x)). lia.
  - apply IH.
Qed.

Lemma fold_max_attained l : forall w, fold_left Z.max l w = w \/ In (fold_left Z.max l w) l.
Proof.
  induction l as [|x l IH]; intros w; simpl; [by left|].
  destruct (IH (Z.max w x)) as [H|H]; [|by right; right].
  rewrite H. destruct (Z.max_spec w x) as [[_ ->]|[_ ->]]; [right; by left | by left].
Qed.

(** ** One poll cycle *)

(** The outcomes of one iteration of the loop. *)
Lemma ingest_cycle_cases env st :
  alive st = true ->
  let k1 := (fetch_trades_since (e_net env) (last_ts st) 1000 (kalshi st)).1 in
  let idle := {| kalshi := k1; db := db st; last_ts := last_ts st; outbox := outbox st;
                 alive := true |} in
  match fetched env st with
  | inl _ => ingest_cycle cfg iso_to_ms env st = idle
  | inr [] => ingest_cycle cfg iso_to_ms env st = idle
  | inr trades =>
      let p := process_trades cfg iso_to_ms env (active_subs (e_subs env)) 0 trades
                 {| b_db := db st; b_out := outbox st; b_max_seen := last_ts st |} in
      ingest_cycle cfg iso_to_ms env st =
      if p.2 then
        {| kalshi := k1; db := b_db p.1; last_ts := last_ts st; outbox := b_out p.1;
           alive := false |}
      else if b_max_seen p.1 >? last_ts st then
        {| kalshi := k1; db := db_set (b_db p.1) "last_ts_ms" (b_max_seen p.1);
           last_ts := b_max_seen p.1; outbox := b_out p.1; alive := true |}
      else
        {| kalshi := k1; db := b_db p.1; last_ts := last_ts st; outbox := b_out p.1;
           alive := true |}
  end.
Proof.
  intros Halive. unfold ingest_cycle, fetched. rewrite Halive. cbn [negb].
  destruct (fetch_trades_since (e_net env) (last_ts st) 1000 (kalshi st)) as [k1 r].
  cbn [fst snd]. destruct r as [e|[|tr trades]]; [done | done |].
  cbv zeta.
  destruct (process_trades cfg iso_to_ms env (active_subs (e_subs env)) 0 (tr :: trades) _)
    as [b raised].
  reflexivity.
Qed.

Lemma ingest_cycle_dead env st : alive st = false -> ingest_cycle cfg iso_to_ms env st = st.
Proof. intros H. unfold ingest_cycle. by rewrite H. Qed.

(** The loop starts with a watermark that the persisted one is not ahead
    of. *)
Lemma ingest_start_synced now k d :
  10 * 60 * 1000 <= now -> wm_synced (ingest_start now k d).
Proof.
  intros Hnow. unfold wm_synced, persisted, ingest_start. cbn [db last_ts].
  destruct (db_get d "last_ts_ms") as [v|]; [|done].
  destruct (Z.leb_spec 0 v); lia.
Qed.

(** What one cycle does to the watermark. *)
Lemma ingest_cycle_watermark env st :
  let st' := ingest_cycle cfg iso_to_ms env st in
  (last_ts st' = last_ts st /\ persisted st' = persisted st) \/
  (last_ts st < last_ts st' /\ persisted st' = Some (last_ts st') /\
   exists trades,
     fetched env st = inr trades /\
     last_ts st' = fold_left Z.max (processed_timestamps iso_to_ms env 0 trades) (last_ts st)).
Proof.
  destruct (alive st) eqn:Halive; [|left; by rewrite ingest_cycle_dead].
  pose proof (ingest_cycle_cases env st Halive) as Hc. cbv zeta in *.
  destruct (fetched env st) as [e|[|tr trades]]; [left; by rewrite Hc | left; by rewrite Hc |].
  set (trs := tr :: trades) in *.
  pose proof (process_trades_meta env (active_subs (e_subs env)) trs 0
                {| b_db := db st; b_out := outbox st; b_max_seen := last_ts st |}) as Hmeta.
  pose proof (process_trades_max_seen env (active_subs (e_subs env)) trs 0
                {| b_db := db st; b_out := outbox st; b_max_seen := last_ts st |}) as Hmax.
  destruct (process_trades cfg iso_to_ms env (active_subs (e_subs env)) 0 trs _) as [b raised].
  cbn [fst snd b_db b_max_seen] in *. rewrite Hc. clear Hc.
  destruct raised.
  - left. unfold persisted, db_get. cbn [db last_ts]. by rewrite Hmeta.
  - specialize (Hmax b eq_refl).
    destruct (Z.gtb_spec (b_max_seen b) (last_ts st)) as [Hgt|Hle].
    + right. unfold persisted, db_get, db_set. cbn [db last_ts meta].
      split_and!; [lia | by rewrite lookup_insert_eq |].
      exists trs. by split.
    + left. unfold persisted, db_get. cbn [db last_ts]. by rewrite Hmeta.
Qed.

Lemma ingest_cycle_idle env st :
  (exists e, fetched env st = inl e) \/ fetched env st = inr [] ->
  last_ts (ingest_cycle cfg iso_to_ms env st) = last_ts st /\
  db (ingest_cycle cfg iso_to_ms env st) = db st.
Proof.
  intros Hf. destruct (alive st) eqn:Halive; [|by rewrite ingest_cycle_dead].
  pose proof (ingest_cycle_cases env st Halive) as Hc. cbv zeta in Hc.
  destruct Hf as [[e He]|He]; rewrite He in Hc; by rewrite Hc.
Qed.

Lemma ingest_run_watermark envs :
  forall st,
    wm_synced st ->
    last_ts st <= last_ts (ingest_run cfg iso_to_ms envs st) /\
    opt_le (persisted st) (persisted (ingest_run cfg iso_to_ms envs st)) /\
    wm_synced (ingest_run cfg iso_to_ms envs st).
Proof.
  induction envs as [|env envs IH]; intros st Hsync; cbn [ingest_run fold_left].
  - split_and!; [lia | | done]. unfold opt_le. destruct (persisted st); [lia | done].
  - fold (ingest_run cfg iso_to_ms envs (ingest_cycle cfg iso_to_ms env st)).
    pose proof (ingest_cycle_watermark env st) as Hstep. cbv zeta in Hstep.
    set (st1 := ingest_cycle cfg iso_to_ms env st) in *.
    assert (H1 : last_ts st <= last_ts st1 /\ opt_le (persisted st) (persisted st1) /\ wm_synced st1).
    { unfold wm_synced, opt_le in *.
      destruct Hstep as [[Hl Hp]|(Hl & Hp & _)]; rewrite Hp.
      - rewrite Hl. destruct (persisted st); split_and!; try done; lia.
      - destruct (persisted st); split_and!; try done; lia. }
    destruct H1 as (Hl1 & Hp1 & Hs1).
    destruct (IH st1 Hs1) as (Hl2 & Hp2 & Hs2).
    split_and!; [lia | | done].
    unfold opt_le in *.
    destruct (persisted st), (persisted st1), (persisted (ingest_run cfg iso_to_ms envs st1));
      try done; lia.
Qed.

(** C4.  In every poll cycle the watermark does not decrease; when it moves,
    the new value is persisted and is the largest timestamp among the trades
    processed in that cycle, so it never advances past that maximum; when it
    does not move, the persisted value is untouched; a failed fetch or an
    empty batch leaves the watermark and the store as they were.  Over any
    sequence of cycles, from a state whose persisted watermark is not ahead
    of the watermark in use, neither the watermark nor the persisted
    watermark ever decreases. *)
Theorem watermark_monotone :
  (forall env st,
     let st' := ingest_cycle cfg iso_to_ms env st in
     last_ts st <= last_ts st' /\
     (last_ts st' <> last_ts st ->
      persisted st' = Some (last_ts st') /\
      exists trades,
        fetched env st = inr trades /\
        In (last_ts st') (processed_timestamps iso_to_ms env 0 trades) /\
        Forall (fun t => t <= last_ts st') (processed_timestamps iso_to_ms env 0 trades)) /\
     (last_ts st' = last_ts st -> persisted st' = persisted st) /\
     ((exists e, fetched env st = inl e) \/ fetched env st = inr [] ->
      last_ts st' = last_ts st /\ db st' = db st)) /\
  (forall envs st,
     wm_synced st ->
     last_ts st <= last_ts (ingest_run cfg iso_to_ms envs st) /\
     opt_le (persisted st) (persisted (ingest_run cfg iso_to_ms envs st)) /\
     wm_synced (ingest_run cfg iso_to_ms envs st)).
Proof.
  split; [|intros envs st; apply ingest_run_watermark].
  intros env st st'.
  pose proof (ingest_cycle_watermark env st) as Hstep. cbv zeta in Hstep. fold st' in Hstep.
  split_and!.
  - destruct Hstep as [[-> _]|[Hlt _]]; lia.
  - intros Hne. destruct Hstep as [[Heq _]|(Hlt & Hp & trades & Hf & Hmax)]; [done|].
    split; [done|]. exists trades. split; [done|].
    rewrite Hmax. split.
    + destruct (fold_max_attained (processed_timestamps iso_to_ms env 0 trades) (last_ts st))
        as [Hw|Hin]; [|done].
      rewrite Hmax in Hne. done.
    + apply fold_max_bound.
  - intros Heq. destruct Hstep as [[_ Hp]|[Hlt _]]; [done | lia].
  - apply ingest_cycle_idle.
Qed.

(** ** The notional gate and the per-instrument timestamp *)

Lemma notional_without_prices tr :
  tr_yes_price_dollars tr = None -> tr_yes_price tr = None -> tr_price tr = None ->
  trade_notional_usd tr = 0%Q.
Proof. intros H1 H2 H3. unfold trade_notional_usd. by rewrite H1, H2, H3. Qed.

(** C2 (amended).  A trade whose computed notional is not positive, in
    particular one with no price key at all, leaves the whole pass state as
    it was: nothing is stored, nobody is alerted, and [max_seen] keeps its
    value, so the timestamp of such a trade takes no part in the maximum
    that the watermark advances to. *)
Theorem non_positive_notional_skipped now send active tr b :
  Qle_bool (trade_notional_usd tr) 0 = true \/
  (tr_yes_price_dollars tr = None /\ tr_yes_price tr = None /\ tr_price tr = None) ->
  process_trade cfg iso_to_ms now send active tr b = (b, false).
Proof.
  intros H.
  assert (Hz : Qle_bool (trade_notional_usd tr) 0 = true).
  { destruct H as [H|(H1 & H2 & H3)]; [done|]. by rewrite notional_without_prices. }
  rewrite process_trade_unfold. cbv zeta. by rewrite Hz.
Qed.

(** The per-instrument update of the loop body is an overwrite. *)
Lemma process_trade_last_ts now send active tr b :
  let f := trade_core_fields iso_to_ms now tr in
  Qle_bool (trade_notional_usd tr) 0 = false ->
  last_trade_ts_for_ticker (b_db (process_trade cfg iso_to_ms now send active tr b).1)
    (core_ticker f) = core_ts_ms f.
Proof.
  intros f Hpos. rewrite process_trade_unfold. cbv zeta. rewrite Hpos. fold f.
  tag_spec Hspec. destruct Hspec as (Hs & _).
  unfold last_trade_ts_for_ticker.
  destruct (dispatch _ _ _ _ _ _ _ _ _ _).2; cbn [fst b_db];
    by rewrite Hs, lookup_insert_eq.
Qed.

(** C3 (amended).  After a trade with positive notional has been processed,
    the [stats] row of its instrument holds that trade's timestamp, whatever
    was there before; this is the maximum of the previous value and the
    trade's timestamp exactly when the trade is not older than the previous
    value. *)
Theorem last_trade_ts_overwritten now send active tr b :
  let f := trade_core_fields iso_to_ms now tr in
  let prev := last_trade_ts_for_ticker (b_db b) (core_ticker f) in
  let b' := (process_trade cfg iso_to_ms now send active tr b).1 in
  Qle_bool (trade_notional_usd tr) 0 = false ->
  last_trade_ts_for_ticker (b_db b') (core_ticker f) = core_ts_ms f /\
  (last_trade_ts_for_ticker (b_db b') (core_ticker f) = Z.max prev (core_ts_ms f)
   <-> prev <= core_ts_ms f).
Proof.
  intros f prev b' Hpos.
  pose proof (process_trade_last_ts now send active tr b Hpos) as Hnew. fold f b' in Hnew.
  split; [done|]. rewrite Hnew. lia.
Qed.

(** ** The silent-breaker tag *)

(** Without a recorded timestamp (the value 0 stands for "no row") the tag is
    never given. *)
Lemma silent_breaker_needs_record now d trade_id ts_ms ticker side count yes_cents notional :
  last_trade_ts_for_ticker d ticker = 0 ->
  ~ In "Silent-breaker"
      (tag_and_store cfg now d trade_id ts_ms ticker side count yes_cents notional).2.
Proof.
  intros Hnone Hin.
  destruct (tag_and_store_spec now d trade_id ts_ms ticker side count yes_cents notional)
    as (_ & _ & _ & _ & _ & _ & Hsb).
  apply Hsb in Hin. rewrite Hnone in Hin. by destruct Hin.
Qed.

(** C9.  For a trade with positive notional on an instrument whose recorded
    [last_trade_ts_ms] is [prev], a non-zero value, the tags of the trade
    contain [Silent-breaker] exactly when the trade's timestamp minus [prev]
    is at least 7,200,000 ms; these are the tags carried by every alert sent
    for the trade; [prev] is the value read before the trade's own update,
    after which the recorded value is the trade's timestamp. *)
Theorem silent_breaker_boundary now send active tr b prev :
  let f := trade_core_fields iso_to_ms now tr in
  let tags := (tag_and_store cfg now (b_db b) (core_trade_id f) (core_ts_ms f) (core_ticker f)
                 (core_side f) (core_count f) (core_yes_cents f) (trade_notional_usd tr)).2 in
  let b' := (process_trade cfg iso_to_ms now send active tr b).1 in
  Qle_bool (trade_notional_usd tr) 0 = false ->
  last_trade_ts_for_ticker (b_db b) (core_ticker f) = prev ->
  prev <> 0 ->
  (In "Silent-breaker" tags <-> 7200000 <= core_ts_ms f - prev) /\
  (exists new, b_out b' = b_out b ++ new /\ Forall (fun p => a_flags p.1 = tags) new) /\
  last_trade_ts_for_ticker (b_db b') (core_ticker f) = core_ts_ms f.
Proof.
  intros f tags b' Hpos Hprev Hnz.
  split_and!.
  - unfold tags.
    tag_spec Hspec. destruct Hspec as (_ & _ & _ & _ & _ & _ & Hsb).
    rewrite Hsb, Hprev. tauto.
  - unfold b'. rewrite process_trade_unfold. cbv zeta. rewrite Hpos. fold f. fold tags.
    match goal with |- context [dispatch ?s ?a ?k ?sd ?q ?c ?y ?t ?fl ?o] =>
      destruct (dispatch_log s a k sd q c y t fl o) as (new & Hn & Hf) end.
    exists new. split; [|done].
    by destruct (dispatch _ _ _ _ _ _ _ _ _ _).2.
  - by apply process_trade_last_ts.
Qed.

(** ** The watermark plays no part in the processing of a batch *)

Lemma process_trade_max_irrelevant now send active tr b1 b2 :
  b_db b2 = b_db b1 -> b_out b2 = b_out b1 ->
  let p1 := process_trade cfg iso_to_ms now send active tr b1 in
  let p2 := process_trade cfg iso_to_ms now send active tr b2 in
  b_db p2.1 = b_db p1.1 /\ b_out p2.1 = b_out p1.1 /\ p2.2 = p1.2.
Proof.
  intros Hdb Hout p1 p2. unfold p1, p2. rewrite !process_trade_unfold. cbv zeta.
  rewrite Hdb, Hout.
  destruct (Qle_bool (trade_notional_usd tr) 0); [done|].
  by destruct (dispatch _ _ _ _ _ _ _ _ _ _).2.
Qed.

Lemma process_trades_max_irrelevant env active trades :
  forall i b1 b2,
    b_db b2 = b_db b1 -> b_out b2 = b_out b1 ->
    let p1 := process_trades cfg iso_to_ms env active i trades b1 in
    let p2 := process_trades cfg iso_to_ms env active i trades b2 in
    b_db p2.1 = b_db p1.1 /\ b_out p2.1 = b_out p1.1 /\ p2.2 = p1.2.
Proof.
  induction trades as [|tr trades IH]; intros i b1 b2 Hdb Hout; cbn [process_trades]; [done|].
  destruct (process_trade_max_irrelevant (e_now env i) (e_send env i) active tr b1 b2 Hdb Hout)
    as (Hd & Ho & Hr).
  destruct (process_trade cfg iso_to_ms (e_now env i) (e_send env i) active tr b1) as [c1 r1].
  destruct (process_trade cfg iso_to_ms (e_now env i) (e_send env i) active tr b2) as [c2 r2].
  cbn [fst snd] in *. subst r2. destruct r1; [done|]. by apply IH.
Qed.

(** The parts of the result of a cycle that do not involve the watermark. *)
Lemma ingest_cycle_batch env st tr trades :
  alive st = true ->
  fetched env st = inr (tr :: trades) ->
  let p := process_trades cfg iso_to_ms env (active_subs (e_subs env)) 0 (tr :: trades)
             {| b_db := db st; b_out := outbox st; b_max_seen := last_ts st |} in
  let st' := ingest_cycle cfg iso_to_ms env st in
  kalshi st' = (fetch_trades_since (e_net env) (last_ts st) 1000 (kalshi st)).1 /\
  prints (db st') = prints (b_db p.1) /\
  stats (db st') = stats (b_db p.1) /\
  outbox st' = b_out p.1 /\
  alive st' = negb p.2.
Proof.
  intros Halive Hf p st'.
  pose proof (ingest_cycle_cases env st Halive) as Hc. cbv zeta in Hc. rewrite Hf in Hc.
  fold p in Hc. unfold st'. rewrite Hc.
  destruct p.2; [done|]. by destruct (_ >? _).
Qed.

Lemma ingest_cycle_no_batch env st :
  alive st = true ->
  (exists e, fetched env st = inl e) \/ fetched env st = inr [] ->
  ingest_cycle cfg iso_to_ms env st =
  {| kalshi := (fetch_trades_since (e_net env) (last_ts st) 1000 (kalshi st)).1;
     db := db st; last_ts := last_ts st; outbox := outbox st; alive := true |}.
Proof.
  intros Halive Hf.
  pose proof (ingest_cycle_cases env st Halive) as Hc. cbv zeta in Hc.
  by destruct Hf as [[e He]|He]; rewrite He in Hc.
Qed.

(** A trade whose [trade_id] is already stored adds no row. *)
Lemma process_trade_stored_id now send active tr b :
  has_trade_id (b_db b) (core_trade_id (trade_core_fields iso_to_ms now tr)) = true ->
  prints (b_db (process_trade cfg iso_to_ms now send active tr b).1) = prints (b_db b).
Proof.
  intros Hstored. rewrite process_trade_unfold. cbv zeta.
  destruct (Qle_bool (trade_notional_usd tr) 0); [done|].
  tag_spec Hspec. destruct Hspec as (_ & _ & Hp & _).
  destruct Hp as [[_ Hp]|[Hfresh _]]; [|congruence].
  by destruct (dispatch _ _ _ _ _ _ _ _ _ _).2.
Qed.

(** C1 (amended).  In a poll cycle entered with the capability
    "unsupported", every request the fetcher sends omits the [min_ts]
    parameter, and the loop applies no timestamp filter of its own: run with
    any other watermark [w], the cycle fetches the same batch, leaves the
    same fetcher state, the same stored rows and per-instrument timestamps,
    and logs the same notifications.  The one protection against a repeated
    trade is the key of [prints]: a trade whose [trade_id] is already stored
    adds no row. *)
Theorem unsupported_cycle_ignores_watermark env st w :
  alive st = true ->
  min_ts_supported (kalshi st) = Some false ->
  let st1 := ingest_cycle cfg iso_to_ms env st in
  let st2 := ingest_cycle cfg iso_to_ms env (with_last_ts w st) in
  (exists new, sent (kalshi st1) = sent (kalshi st) ++ new /\ Forall omits_filter new) /\
  fetched env (with_last_ts w st) = fetched env st /\
  kalshi st2 = kalshi st1 /\
  prints (db st2) = prints (db st1) /\
  stats (db st2) = stats (db st1) /\
  outbox st2 = outbox st1 /\
  alive st2 = alive st1 /\
  (forall now send active tr b,
     has_trade_id (b_db b) (core_trade_id (trade_core_fields iso_to_ms now tr)) = true ->
     prints (b_db (process_trade cfg iso_to_ms now send active tr b).1) = prints (b_db b)).
Proof.
  intros Halive Hk st1 st2.
  assert (Hfetch : fetch_trades_since (e_net env) w 1000 (kalshi st)
                   = fetch_trades_since (e_net env) (last_ts st) 1000 (kalshi st)).
  { by rewrite !(fetch_unsupported _ _ _ _ Hk). }
  assert (Hfetched : fetched env (with_last_ts w st) = fetched env st).
  { unfold fetched. cbn [with_last_ts kalshi last_ts]. by rewrite Hfetch. }
  destruct (fetch_unsupported_log (e_net env) (last_ts st) 1000 (kalshi st) Hk)
    as (_ & new & Hs & Hf).
  assert (Hsame : kalshi st1 = (fetch_trades_since (e_net env) (last_ts st) 1000 (kalshi st)).1 /\
                  kalshi st2 = kalshi st1 /\ prints (db st2) = prints (db st1) /\
                  stats (db st2) = stats (db st1) /\ outbox st2 = outbox st1 /\
                  alive st2 = alive st1).
  { unfold st1, st2.
    destruct (fetched env st) as [e|[|tr trades]] eqn:Hbatch.
    - rewrite (ingest_cycle_no_batch env st Halive) by eauto.
      rewrite (ingest_cycle_no_batch env (with_last_ts w st) Halive) by (rewrite Hfetched; eauto).
      cbn [with_last_ts kalshi last_ts db outbox alive]. by rewrite Hfetch.
    - rewrite (ingest_cycle_no_batch env st Halive) by eauto.
      rewrite (ingest_cycle_no_batch env (with_last_ts w st) Halive) by (rewrite Hfetched; eauto).
      cbn [with_last_ts kalshi last_ts db outbox alive]. by rewrite Hfetch.
    - destruct (ingest_cycle_batch env st tr trades Halive Hbatch) as (Ha1 & Ha2 & Ha3 & Ha4 & Ha5).
      destruct (ingest_cycle_batch env (with_last_ts w st) tr trades Halive Hfetched)
        as (Hb1 & Hb2 & Hb3 & Hb4 & Hb5).
      cbn [with_last_ts kalshi last_ts db outbox] in Hb1, Hb2, Hb3, Hb4, Hb5.
      destruct (process_trades_max_irrelevant env (active_subs (e_subs env)) (tr :: trades) 0
                  {| b_db := db st; b_out := outbox st; b_max_seen := last_ts st |}
                  {| b_db := db st; b_out := outbox st; b_max_seen := w |} eq_refl eq_refl)
        as (Hd & Ho & Hr).
      rewrite Ha1, Ha2, Ha3, Ha4, Ha5, Hb1, Hb2, Hb3, Hb4, Hb5, Hd, Ho, Hr, Hfetch.
      done. }
  destruct Hsame as (Hk1 & Hrest).
  split_and!; try tauto.
  - rewrite Hk1. by exists new.
  - intros now send active tr b Hstored.
    pose proof (process_trade_stored_id now send active tr b Hstored). done.
Qed.

(** ** The [flags] column *)

Lemma process_trade_prints now send active tr b :
  exists new,
    prints (b_db (process_trade cfg iso_to_ms now send active tr b).1) = prints (b_db b) ++ new /\
    Forall (fun r => In (p_flags r) stored_flags) new.
Proof.
  rewrite process_trade_unfold. cbv zeta.
  destruct (Qle_bool (trade_notional_usd tr) 0).
  { exists []. by rewrite app_nil_r. }
  tag_spec Hspec. destruct Hspec as (_ & _ & Hp & Hfl & _).
  destruct Hp as [[_ Hp]|[_ Hp]].
  - exists []. rewrite app_nil_r. by destruct (dispatch _ _ _ _ _ _ _ _ _ _).2.
  - eexists. split.
    + destruct (dispatch _ _ _ _ _ _ _ _ _ _).2; cbn [fst b_db]; exact Hp.
    + constructor; [exact Hfl | constructor].
Qed.

Lemma process_trades_prints env active trades :
  forall i b,
    exists new,
      prints (b_db (process_trades cfg iso_to_ms env active i trades b).1) = prints (b_db b) ++ new /\
      Forall (fun r => In (p_flags r) stored_flags) new.
Proof.
  induction trades as [|tr trades IH]; intros i b; cbn [process_trades].
  - exists []. by rewrite app_nil_r.
  - destruct (process_trade_prints (e_now env i) (e_send env i) active tr b) as (new1 & H1 & F1).
    destruct (process_trade cfg iso_to_ms (e_now env i) (e_send env i) active tr b) as [b1 raised].
    cbn [fst] in H1. destruct raised; [by exists new1|].
    destruct (IH (S i) b1) as (new2 & H2 & F2).
    exists (new1 ++ new2). rewrite H2, H1, <- app_assoc. split; [done|]. by apply Forall_app.
Qed.

Lemma ingest_cycle_prints env st :
  exists new,
    prints (db (ingest_cycle cfg iso_to_ms env st)) = prints (db st) ++ new /\
    Forall (fun r => In (p_flags r) stored_flags) new.
Proof.
  destruct (alive st) eqn:Halive.
  2: { rewrite ingest_cycle_dead by done. exists []. by rewrite app_nil_r. }
  destruct (fetched env st) as [e|[|tr trades]] eqn:Hbatch.
  - rewrite (ingest_cycle_no_batch env st Halive) by eauto. exists []. by rewrite app_nil_r.
  - rewrite (ingest_cycle_no_batch env st Halive) by eauto. exists []. by rewrite app_nil_r.
  - destruct (ingest_cycle_batch env st tr trades Halive Hbatch) as (_ & Hp & _).
    rewrite Hp. apply process_trades_prints.
Qed.

Lemma ingest_run_prints envs :
  forall st,
    exists new,
      prints (db (ingest_run cfg iso_to_ms envs st)) = prints (db st) ++ new /\
      Forall (fun r => In (p_flags r) stored_flags) new.
Proof.
  induction envs as [|env envs IH]; intros st; cbn [ingest_run fold_left].
  - exists []. by rewrite app_nil_r.
  - fold (ingest_run cfg iso_to_ms envs (ingest_cycle cfg iso_to_ms env st)).
    destruct (ingest_cycle_prints env st) as (new1 & H1 & F1).
    destruct (IH (ingest_cycle cfg iso_to_ms env st)) as (new2 & H2 & F2).
    exists (new1 ++ new2). rewrite H2, H1, <- app_assoc. split; [done|]. by apply Forall_app.
Qed.

(** ** Failures of the notification transport *)

Lemma dispatch_same send1 send2 active ticker side notional count yes_cents ts_ms flags :
  (forall uid, escapes (send1 uid) = escapes (send2 uid)) ->
  forall out1 out2,
    map fst out1 = map fst out2 ->
    let d1 := dispatch send1 active ticker side notional count yes_cents ts_ms flags out1 in
    let d2 := dispatch send2 active ticker side notional count yes_cents ts_ms flags out2 in
    map fst d1.1 = map fst d2.1 /\ d1.2 = d2.2.
Proof.
  intros Hesc.
  induction active as [|[[[uid thr] top] tz] active IH]; intros out1 out2 Hout; cbn [dispatch].
  - done.
  - destruct (Qle_bool thr notional && topic_match top ticker); [|by apply IH].
    unfold notify_user. cbn [a_uid]. specialize (Hesc uid).
    destruct (send1 uid), (send2 uid); try discriminate Hesc;
      try (apply IH; rewrite !map_app, Hout; reflexivity).
    cbn [fst snd]. by rewrite !map_app, Hout.
Qed.

Lemma process_trade_same now send1 send2 active tr b1 b2 :
  (forall uid, escapes (send1 uid) = escapes (send2 uid)) ->
  same_processing b1 b2 ->
  same_processing (process_trade cfg iso_to_ms now send1 active tr b1).1
                  (process_trade cfg iso_to_ms now send2 active tr b2).1 /\
  (process_trade cfg iso_to_ms now send1 active tr b1).2
  = (process_trade cfg iso_to_ms now send2 active tr b2).2.
Proof.
  intros Hesc (Hdb & Hmax & Hout). rewrite !process_trade_unfold. cbv zeta.
  rewrite Hdb, Hmax.
  destruct (Qle_bool (trade_notional_usd tr) 0); [done|].
  match goal with |- context [dispatch send1 ?a ?k ?sd ?q ?c ?y ?t ?fl (b_out b1)] =>
    destruct (dispatch_same send1 send2 a k sd q c y t fl Hesc (b_out b1) (b_out b2) Hout)
      as [Hd Hr] end.
  rewrite Hr. by destruct (dispatch send2 _ _ _ _ _ _ _ _ _).2.
Qed.

Lemma process_trades_same env1 env2 active trades :
  e_now env1 = e_now env2 ->
  (forall i uid, escapes (e_send env1 i uid) = escapes (e_send env2 i uid)) ->
  forall i b1 b2,
    same_processing b1 b2 ->
    same_processing (process_trades cfg iso_to_ms env1 active i trades b1).1
                    (process_trades cfg iso_to_ms env2 active i trades b2).1 /\
    (process_trades cfg iso_to_ms env1 active i trades b1).2
    = (process_trades cfg iso_to_ms env2 active i trades b2).2.
Proof.
  intros Hnow Hesc.
  induction trades as [|tr trades IH]; intros i b1 b2 Hb; cbn [process_trades]; [done|].
  destruct (process_trade_same (e_now env1 i) (e_send env1 i) (e_send env2 i) active tr b1 b2
              (Hesc i) Hb) as [Hs Hr].
  rewrite <- Hnow.
  destruct (process_trade cfg iso_to_ms (e_now env1 i) (e_send env1 i) active tr b1) as [c1 r1].
  destruct (process_trade cfg iso_to_ms (e_now env1 i) (e_send env2 i) active tr b2) as [c2 r2].
  cbn [fst snd] in *. subst r2. destruct r1; [done|]. by apply IH.
Qed.

(** A [TelegramNetworkError] changes nothing but the logged outcome: two
    cycles whose transports differ only in failing (with that error) or
    delivering fetch, store, tag and notify alike and leave the same
    watermark. *)
Lemma telegram_network_error_harmless env1 env2 st :
  e_net env1 = e_net env2 -> e_subs env1 = e_subs env2 -> e_now env1 = e_now env2 ->
  (forall i uid, escapes (e_send env1 i uid) = escapes (e_send env2 i uid)) ->
  let st1 := ingest_cycle cfg iso_to_ms env1 st in
  let st2 := ingest_cycle cfg iso_to_ms env2 st in
  kalshi st1 = kalshi st2 /\ db st1 = db st2 /\ last_ts st1 = last_ts st2 /\
  alive st1 = alive st2 /\ map fst (outbox st1) = map fst (outbox st2).
Proof.
  intros Hnet Hsubs Hnow Hesc st1 st2. unfold st1, st2.
  destruct (alive st) eqn:Halive; [|by rewrite !ingest_cycle_dead].
  pose proof (ingest_cycle_cases env1 st Halive) as H1.
  pose proof (ingest_cycle_cases env2 st Halive) as H2.
  cbv zeta in H1, H2. unfold fetched in H1, H2. rewrite <- Hnet, <- Hsubs in H2.
  destruct (fetch_trades_since (e_net env1) (last_ts st) 1000 (kalshi st)).2
    as [e|[|tr trades]]; try by rewrite H1, H2.
  rewrite H1, H2.
  destruct (process_trades_same env1 env2 (active_subs (e_subs env1)) (tr :: trades) Hnow Hesc 0
              {| b_db := db st; b_out := outbox st; b_max_seen := last_ts st |}
              {| b_db := db st; b_out := outbox st; b_max_seen := last_ts st |})
    as [(Hdb & Hmax & Hout) Hr]; [done|].
  rewrite <- Hr, <- Hdb, <- Hmax.
  destruct (process_trades cfg iso_to_ms env1 _ _ _ _).2; [done|].
  by destruct (_ >? _).
Qed.

End Loop_body.

(** C10.  Over any run of the loop, every row added to [prints] carries in
    its [flags] column one of the four texts built from [Silent-breaker] and
    [Unusual size]; none of them mentions [Accumulation].  That tag is
    appended only after the insert: in the example, the third of three
    6000-dollar trades within ten minutes is alerted with [Accumulation]
    while the three stored rows have empty flags. *)
Theorem stored_flags_exclude_accumulation :
  (forall cfg iso_to_ms envs st,
     exists new,
       prints (db (ingest_run cfg iso_to_ms envs st)) = prints (db st) ++ new /\
       Forall (fun r => In (p_flags r) stored_flags) new) /\
  Forall (fun s => contains "Accumulation" s = false) stored_flags /\
  (let st := ingest_cycle Ex.cfg Ex.iso
               (Ex.env (Ex.net_ok [Ex.t1; Ex.t2; Ex.t3]) [Ex.subscriber 7] Ex.delivers)
               (Ex.loop (Some false) 1500000000000) in
   map (fun p => a_flags p.1) (outbox st) = [[]; []; ["Accumulation"]] /\
   map p_flags (prints (db st)) = [""; ""; ""]).
Proof.
  split_and!.
  - intros cfg iso_to_ms envs st. apply ingest_run_prints.
  - unfold stored_flags. repeat constructor.
  - vm_compute. split; reflexivity.
Qed.

(** ** The properties at concrete inputs *)

(** The failover property at work: the primary answers 503 and the fallback
    200, then the primary is unreachable and the fallback answers 404. *)
Lemma resilient_get_failover_witness :
  resilient_get (Ex.net_primary_down [Ex.t1]) trades_path (trades_params 1000 None)
    (Ex.pinned (Some false))
  = (set_host FALLBACK
       (with_sent (Ex.pinned (Some false))
          (map (fun h => mk_request h trades_path (trades_params 1000 None)) ([Ex.A] ++ [FALLBACK]))),
     inr (Ex.body [Ex.t1])) /\
  resilient_get Ex.net_fallback_404 trades_path (trades_params 1000 None) (Ex.pinned (Some false))
  = (with_sent (Ex.pinned (Some false))
       (map (fun h => mk_request h trades_path (trades_params 1000 None)) ([Ex.A] ++ [FALLBACK])),
     inl (HTTPStatusError 404)).
Proof.
  split.
  - destruct (resilient_get_failover (Ex.net_primary_down [Ex.t1]) trades_path
                (trades_params 1000 None) (Ex.pinned (Some false)) Ex.A [Ex.A] FALLBACK [])
      as [Hok _].
    + reflexivity.
    + reflexivity.
    + intros [|i] h' Hi; [injection Hi as <-; reflexivity | discriminate Hi].
    + apply (Hok 200 (Ex.body [Ex.t1])); reflexivity.
  - destruct (resilient_get_failover Ex.net_fallback_404 trades_path
                (trades_params 1000 None) (Ex.pinned (Some false)) Ex.A [Ex.A] FALLBACK [])
      as [_ Hstop].
    + reflexivity.
    + reflexivity.
    + intros [|i] h' Hi; [injection Hi as <-; reflexivity | discriminate Hi].
    + apply (Hstop 404 None); [reflexivity | lia].
Defined.

(** The downgrade at work on an upstream that answers 400 to [min_ts]. *)
Lemma capability_downgrade_witness :
  let net := Ex.net_rejects_min_ts [Ex.t1] in
  let r := fetch_trades_since net 1500000000000 1000 (Ex.pinned (Some true)) in
  r.2 = inr [Ex.t1] /\
  min_ts_supported r.1 = Some false /\
  min_ts_supported
    (run_calls [(net, CallTitle "BTC-X"); (net, CallFetch 1600000000000 1000); (net, CallHealth)] r.1)
  = Some false.
Proof.
  intros net r.
  destruct (capability_downgrade net 1500000000000 1000 (Ex.pinned (Some true))
              (with_sent (Ex.pinned (Some true))
                 [mk_request Ex.A trades_path (trades_params 1000 (Some 1500000000000))]))
    as (Heq & Hafter & Hmany).
  - reflexivity.
  - reflexivity.
  - fold r in Heq, Hafter, Hmany. split_and!.
    + rewrite Heq. reflexivity.
    + exact Hafter.
    + apply Hmany.
Defined.

(** The watermark over three cycles: a newer trade, an older one, an empty
    batch. *)
Lemma watermark_monotone_witness :
  let st := Ex.loop (Some false) 1500000000000 in
  let env := Ex.env (Ex.net_ok [Ex.t1]) [Ex.subscriber 7] Ex.delivers in
  let quiet := Ex.env (Ex.net_ok []) [] Ex.delivers in
  let envs := [env; Ex.env (Ex.net_ok [Ex.t_late]) [Ex.subscriber 7] Ex.delivers; quiet] in
  persisted (ingest_cycle Ex.cfg Ex.iso env st) = Some 1600000000000 /\
  last_ts (ingest_cycle Ex.cfg Ex.iso quiet st) = last_ts st /\
  last_ts st <= last_ts (ingest_run Ex.cfg Ex.iso envs st) /\
  opt_le (persisted st) (persisted (ingest_run Ex.cfg Ex.iso envs st)).
Proof.
  intros st env quiet envs.
  destruct (watermark_monotone Ex.cfg Ex.iso) as [Hcycle Hrun].
  split_and!.
  - destruct (Hcycle env st) as (_ & Hmoved & _).
    destruct Hmoved as [Hp _].
    + vm_compute. discriminate.
    + exact Hp.
  - destruct (Hcycle quiet st) as (_ & _ & _ & Hidle).
    destruct Hidle as [Hl _].
    + right. reflexivity.
    + exact Hl.
  - destruct (Hrun envs st) as (Hl & _ & _).
    + vm_compute. exact I.
    + exact Hl.
  - destruct (Hrun envs st) as (_ & Hp & _).
    + vm_compute. exact I.
    + exact Hp.
Defined.

(** A trade without price keys leaves the pass state as it was. *)
Lemma non_positive_notional_skipped_witness :
  process_trade Ex.cfg Ex.iso 1700000000000 (Ex.delivers 0%nat)
    (active_subs [Ex.subscriber 7]) Ex.t_unpriced (Ex.batch0 empty_db 1500000000000)
  = (Ex.batch0 empty_db 1500000000000, false).
Proof.
  apply non_positive_notional_skipped. right. repeat split.
Defined.

(** The recorded timestamp after [t1] and after the older [t_late]. *)
Lemma last_trade_ts_overwritten_witness :
  let b := (process_trade Ex.cfg Ex.iso 1700000000000 (Ex.delivers 0%nat) [] Ex.t1
              (Ex.batch0 empty_db 1500000000000)).1 in
  let b' := (process_trade Ex.cfg Ex.iso 1700000000000 (Ex.delivers 1%nat) [] Ex.t_late b).1 in
  last_trade_ts_for_ticker (b_db b) "BTC-X" = 1600000000000 /\
  last_trade_ts_for_ticker (b_db b') "BTC-X" = 1500000000000.
Proof.
  intros b b'. split.
  - exact (proj1 (last_trade_ts_overwritten Ex.cfg Ex.iso 1700000000000 (Ex.delivers 0%nat) []
                    Ex.t1 (Ex.batch0 empty_db 1500000000000) eq_refl)).
  - exact (proj1 (last_trade_ts_overwritten Ex.cfg Ex.iso 1700000000000 (Ex.delivers 1%nat) []
                    Ex.t_late b eq_refl)).
Defined.

(** After [t1], a trade exactly two hours later is tagged, one a millisecond
    earlier is not. *)
Lemma silent_breaker_boundary_witness :
  let b := (process_trade Ex.cfg Ex.iso 1700000000000 (Ex.delivers 0%nat) [] Ex.t1
              (Ex.batch0 empty_db 1500000000000)).1 in
  let tags (tr : RawTrade) :=
    let f := trade_core_fields Ex.iso 1700000000000 tr in
    (tag_and_store Ex.cfg 1700000000000 (b_db b) (core_trade_id f) (core_ts_ms f) (core_ticker f)
       (core_side f) (core_count f) (core_yes_cents f) (trade_notional_usd tr)).2 in
  In "Silent-breaker" (tags Ex.t_2h) /\ ~ In "Silent-breaker" (tags Ex.t_2h_less).
Proof.
  intros b tags. split.
  - destruct (silent_breaker_boundary Ex.cfg Ex.iso 1700000000000 (Ex.delivers 1%nat) []
                Ex.t_2h b 1600000000000) as (Hiff & _ & _).
    + reflexivity.
    + reflexivity.
    + discriminate.
    + apply Hiff. vm_compute. discriminate.
  - destruct (silent_breaker_boundary Ex.cfg Ex.iso 1700000000000 (Ex.delivers 1%nat) []
                Ex.t_2h_less b 1600000000000) as (Hiff & _ & _).
    + reflexivity.
    + reflexivity.
    + discriminate.
    + intros Hin. apply Hiff in Hin. vm_compute in Hin. apply Hin. reflexivity.
Defined.

(** The same cycle at watermark 1,650,000,000,000 and at watermark 0. *)
Lemma unsupported_cycle_ignores_watermark_witness :
  let env := Ex.env (Ex.net_ok [Ex.t1]) [Ex.subscriber 7] Ex.delivers in
  let st1 := ingest_cycle Ex.cfg Ex.iso env (Ex.loop (Some false) 1650000000000) in
  let st2 := ingest_cycle Ex.cfg Ex.iso env (with_last_ts 0 (Ex.loop (Some false) 1650000000000)) in
  prints (db st2) = prints (db st1) /\ outbox st2 = outbox st1.
Proof.
  intros env st1 st2.
  destruct (unsupported_cycle_ignores_watermark Ex.cfg Ex.iso env
              (Ex.loop (Some false) 1650000000000) 0)
    as (_ & _ & _ & Hprints & _ & Hout & _ & _).
  - reflexivity.
  - reflexivity.
  - split; assumption.
Defined.

(** ** Where the code departs from the specification *)

(** C1, as stated, fails.  The capability is unsupported, the watermark is
    1,650,000,000,000 and the upstream returns the trade [t1] of timestamp
    1,600,000,000,000: the trade is not discarded but stored and alerted,
    and the next cycle, which fetches it again, alerts user 7 a second time
    (only the store rejects the repeat). *)
Lemma client_side_filter_absent :
  let st := Ex.loop (Some false) 1650000000000 in
  let env := Ex.env (Ex.net_ok [Ex.t1]) [Ex.subscriber 7] Ex.delivers in
  let st1 := ingest_cycle Ex.cfg Ex.iso env st in
  let st2 := ingest_cycle Ex.cfg Ex.iso env st1 in
  min_ts_supported (kalshi st) = Some false /\
  fetched env st = inr [Ex.t1] /\
  core_ts_ms (trade_core_fields Ex.iso (e_now env 0%nat) Ex.t1) = 1600000000000 /\
  last_ts st = 1650000000000 /\
  map p_trade_id (prints (db st1)) = ["t1"] /\
  map (fun p => (a_uid p.1, a_ts_ms p.1, p.2)) (outbox st1) = [(7, 1600000000000, Delivered)] /\
  map p_trade_id (prints (db st2)) = ["t1"] /\
  map (fun p => (a_uid p.1, a_ts_ms p.1, p.2)) (outbox st2)
  = [(7, 1600000000000, Delivered); (7, 1600000000000, Delivered)].
Proof. vm_compute. repeat split. Qed.

(** C2, as stated, fails.  The batch holds [t1], priced, of timestamp
    1,600,000,000,000, and then a trade without price keys of timestamp
    1,650,000,000,000.  The unpriced trade is neither stored nor alerted, and
    its timestamp takes no part in the maximum: the watermark ends at
    1,600,000,000,000. *)
Lemma zero_notional_timestamp_ignored :
  let st := Ex.loop (Some true) 1500000000000 in
  let env := Ex.env (Ex.net_ok [Ex.t1; Ex.t_unpriced]) [Ex.subscriber 7] Ex.delivers in
  let st' := ingest_cycle Ex.cfg Ex.iso env st in
  fetched env st = inr [Ex.t1; Ex.t_unpriced] /\
  trade_notional_usd Ex.t_unpriced = 0%Q /\
  core_ts_ms (trade_core_fields Ex.iso (e_now env 1%nat) Ex.t_unpriced) = 1650000000000 /\
  map p_trade_id (prints (db st')) = ["t1"] /\
  last_ts st' = 1600000000000 /\
  persisted st' = Some 1600000000000 /\
  last_ts st' <> Z.max (Z.max (last_ts st) 1600000000000) 1650000000000.
Proof. vm_compute. repeat split. discriminate. Qed.

(** C3, as stated, fails.  Within one batch, [t1] of timestamp
    1,600,000,000,000 is followed by a trade on the same instrument of
    timestamp 1,500,000,000,000: the recorded value goes down to the
    latter instead of staying at the maximum. *)
Lemma last_trade_ts_decreases :
  let st := Ex.loop (Some true) 1400000000000 in
  let st1 := ingest_cycle Ex.cfg Ex.iso
               (Ex.env (Ex.net_ok [Ex.t1]) [Ex.subscriber 7] Ex.delivers) st in
  let st2 := ingest_cycle Ex.cfg Ex.iso
               (Ex.env (Ex.net_ok [Ex.t1; Ex.t_late]) [Ex.subscriber 7] Ex.delivers) st in
  last_trade_ts_for_ticker (db st1) "BTC-X" = 1600000000000 /\
  last_trade_ts_for_ticker (db st2) "BTC-X" = 1500000000000 /\
  last_trade_ts_for_ticker (db st2) "BTC-X" <> Z.max 1600000000000 1500000000000.
Proof. vm_compute. repeat split. discriminate. Qed.

(** C6 on the code.  Users 1 and 2 both qualify for the trades [t1] and
    [t2].  When [bot.send_message] raises, for user 1, an exception that is
    not a [TelegramNetworkError], the exception leaves [notify_user] and the
    loop: user 2 is not notified of [t1], [t2] is neither stored nor
    notified, the watermark does not move and the task is dead.  With a
    [TelegramNetworkError] instead, everything proceeds as if the message
    had been delivered. *)
Lemma dispatch_error_stops_the_loop :
  let st := Ex.loop (Some true) 1500000000000 in
  let subs := [Ex.subscriber 1; Ex.subscriber 2] in
  let run send := ingest_cycle Ex.cfg Ex.iso (Ex.env (Ex.net_ok [Ex.t1; Ex.t2]) subs send) st in
  let notified (s : Loop) := map (fun p => (a_uid p.1, a_ts_ms p.1, p.2)) (outbox s) in
  (notified (run Ex.delivers)
   = [(1, 1600000000000, Delivered); (2, 1600000000000, Delivered);
      (1, 1600000060000, Delivered); (2, 1600000060000, Delivered)] /\
   map p_trade_id (prints (db (run Ex.delivers))) = ["t1"; "t2"] /\
   last_ts (run Ex.delivers) = 1600000060000 /\
   alive (run Ex.delivers) = true) /\
  (notified (run Ex.user1_unreachable)
   = [(1, 1600000000000, RaisesTelegramNetworkError); (2, 1600000000000, Delivered);
      (1, 1600000060000, RaisesTelegramNetworkError); (2, 1600000060000, Delivered)] /\
   map p_trade_id (prints (db (run Ex.user1_unreachable))) = ["t1"; "t2"] /\
   last_ts (run Ex.user1_unreachable) = 1600000060000 /\
   alive (run Ex.user1_unreachable) = true) /\
  (notified (run Ex.user1_raises) = [(1, 1600000000000, RaisesOther)] /\
   map p_trade_id (prints (db (run Ex.user1_raises))) = ["t1"] /\
   last_ts (run Ex.user1_raises) = 1500000000000 /\
   persisted (run Ex.user1_raises) = None /\
   alive (run Ex.user1_raises) = false).
Proof. vm_compute. repeat split. Qed.

(** C8 on the code.  The primary host is pinned and the fallback host is up.
    When the primary host answers 503, or refuses the connection
    ([httpx.ConnectError]), [resilient_get] moves on to the fallback, returns
    its data and pins it.  When the primary host does not accept the
    connection within the client's timeout, [self.client.get] raises
    [httpx.ConnectTimeout], which is not among the three classes of the first
    handler: [except Exception] leaves the loop and the call raises, the
    fallback not having been asked.  The pinned host is unchanged, so the
    next call fails in the same way. *)
Lemma connect_timeout_stops_failover :
  let k := Ex.pinned (Some false) in
  let rq h := mk_request h trades_path (trades_params 1000 None) in
  let get net := resilient_get net trades_path (trades_params 1000 None) in
  (get (Ex.net_primary_down [Ex.t1]) k
   = (set_host FALLBACK (with_sent k [rq Ex.A; rq FALLBACK]), inr (Ex.body [Ex.t1])) /\
   get (Ex.net_primary_refuses [Ex.t1]) k
   = (set_host FALLBACK (with_sent k [rq Ex.A; rq FALLBACK]), inr (Ex.body [Ex.t1]))) /\
  (Ex.net_primary_times_out [Ex.t1] 0%nat (rq Ex.A) = OtherFailure /\
   Ex.net_primary_times_out [Ex.t1] 1%nat (rq FALLBACK) = Status 200 (Some (Ex.body [Ex.t1])) /\
   get (Ex.net_primary_times_out [Ex.t1]) k = (with_sent k [rq Ex.A], inl OtherError) /\
   host (with_sent k [rq Ex.A]) = Some Ex.A /\
   get (Ex.net_primary_times_out [Ex.t1]) (with_sent k [rq Ex.A])
   = (with_sent k [rq Ex.A; rq Ex.A], inl OtherError)).
Proof. vm_compute. repeat split. Qed.

(** * Further properties of the code *)

(** ** [pick_host] *)

Lemma pick_host_loop_skip net pre :
  forall rest k,
    (forall i h', pre !! i = Some h' ->
       probe_ok (net (length (sent k) + i)%nat (mk_request h' "/markets" probe_params)) = false) ->
    pick_host_loop net (pre ++ rest) k =
    pick_host_loop net rest
      (with_sent k (map (fun h' => mk_request h' "/markets" probe_params) pre)).
Proof.
  induction pre as [|h0 pre IH]; intros rest k Hpre.
  - simpl. by rewrite with_sent_nil.
  - pose proof (Hpre 0%nat h0 eq_refl) as H0. rewrite Nat.add_0_r in H0.
    cbn [app pick_host_loop]. unfold client_get.
    assert (Hnext : pick_host_loop net (pre ++ rest)
                      (with_sent k [mk_request h0 "/markets" probe_params]) =
                    pick_host_loop net rest
                      (with_sent k (map (fun h' => mk_request h' "/markets" probe_params)
                                        (h0 :: pre)))).
    { rewrite IH.
      - by rewrite with_sent_app.
      - intros i h' Hi. simpl. rewrite length_app. simpl.
        replace (length (sent k) + 1 + i)%nat with (length (sent k) + S i)%nat by lia.
        by apply Hpre. }
    destruct (net (length (sent k)) (mk_request h0 "/markets" probe_params)) as [code body| |];
      simpl in H0; try exact Hnext.
    by rewrite H0.
Qed.

(** X1.  [pick_host] probes the hosts in list order and pins the first one
    that answers 200, having sent one probe to each host before it and to
    it, and none after. *)
Theorem pick_host_pins_first_ok net k pre h post :
  hosts k = pre ++ h :: post ->
  (forall i h', pre !! i = Some h' ->
     probe_ok (net (length (sent k) + i)%nat (mk_request h' "/markets" probe_params)) = false) ->
  probe_ok (net (length (sent k) + length pre)%nat (mk_request h "/markets" probe_params)) = true ->
  pick_host net k =
  set_host h (with_sent k (map (fun h' => mk_request h' "/markets" probe_params) (pre ++ [h]))).
Proof.
  intros Hhosts Hpre Hok. unfold pick_host. rewrite Hhosts.
  rewrite (pick_host_loop_skip net pre (h :: post) k Hpre).
  cbn [pick_host_loop]. unfold client_get.
  assert (Hlen : length (sent (with_sent k (map (fun h' => mk_request h' "/markets" probe_params) pre)))
                 = (length (sent k) + length pre)%nat).
  { simpl. by rewrite length_app, length_map. }
  rewrite Hlen.
  destruct (net (length (sent k) + length pre)%nat (mk_request h "/markets" probe_params))
    as [code body| |]; simpl in Hok; try discriminate.
  rewrite Hok. rewrite with_sent_app, map_app. reflexivity.
Qed.

(** X2.  When no host answers 200 to the probe, [pick_host] has probed every
    host once and pins [FALLBACK], whether or not [FALLBACK] is among the
    configured hosts. *)
Theorem pick_host_defaults_to_fallback net k :
  (forall i h', hosts k !! i = Some h' ->
     probe_ok (net (length (sent k) + i)%nat (mk_request h' "/markets" probe_params)) = false) ->
  pick_host net k =
  set_host FALLBACK (with_sent k (map (fun h' => mk_request h' "/markets" probe_params) (hosts k))).
Proof.
  intros Hall. unfold pick_host.
  rewrite <- (app_nil_r (hosts k)) at 1.
  rewrite (pick_host_loop_skip net (hosts k) [] k Hall).
  reflexivity.
Qed.

(** ** [resilient_get] beyond failover *)



Lemma try_hosts_error_recorded net path params pinned order :
  forall last_err k,
    (try_hosts net path params pinned order last_err k).2 = inl AllHostsFailed ->
    order = [] /\ (last_err = None \/ last_err = Some AllHostsFailed).
Proof.
  induction order as [|h0 order IH]; intros last_err k Hres.
  - split; [done|]. simpl in Hres. destruct last_err as [e|]; [|by left].
    right. simpl in Hres. congruence.
  - exfalso. cbn [try_hosts] in Hres. unfold client_get in Hres.
    destruct (net (length (sent k)) (mk_request h0 path params)) as [code body| |].
    + destruct (500 <=? code).
      * apply IH in Hres as [_ [H|H]]; discriminate.
      * destruct (is_success code); [|discriminate Hres].
        by destruct (String.eqb h0 pinned), body.
    + apply IH in Hres as [_ [H|H]]; discriminate.
    + discriminate Hres.
Qed.

(** X4.  [resilient_get] never raises the error [RuntimeError("All hosts
    failed")]: the order always holds the pinned host, so some error has been
    recorded whenever the loop ends without an answer. *)
Theorem resilient_get_never_all_hosts_failed net path params k :
  (resilient_get net path params k).2 <> inl AllHostsFailed.
Proof.
  unfold resilient_get. cbv zeta. unfold host_order. intros Hres.
  apply try_hosts_error_recorded in Hres as [Hnil _]. discriminate.
Qed.

(** X5.  After hosts that were failed over, an exception outside the three
    network classes, or a success status whose body is not JSON, ends the
    call at once with that error and no further host is asked; in the second
    case the answering host has nevertheless become the pinned host. *)
Theorem resilient_get_stops_on_other_errors net path params k p pre h post :
  let k0 := match host k with None => pick_host net k | Some _ => k end in
  host k0 = Some p ->
  host_order p (hosts k0) = pre ++ h :: post ->
  (forall i h', pre !! i = Some h' ->
     fails_over (net (length (sent k0) + i)%nat (mk_request h' path params)) = true) ->
  let asked := map (fun h' => mk_request h' path params) (pre ++ [h]) in
  let answer := net (length (sent k0) + length pre)%nat (mk_request h path params) in
  (answer = OtherFailure ->
   resilient_get net path params k = (with_sent k0 asked, inl OtherError)) /\
  (forall code, answer = Status code None -> is_success code = true ->
   resilient_get net path params k = (set_host h (with_sent k0 asked), inl OtherError)).
Proof.
  intros k0 Hp Horder Hpre asked answer.
  assert (Hstart : exists last_err,
    resilient_get net path params k =
    try_hosts net path params p (h :: post) last_err
      (with_sent k0 (map (fun h' => mk_request h' path params) pre))).
  { unfold resilient_get. fold k0. cbv zeta. rewrite Hp. cbn [or_else]. rewrite Horder.
    by apply try_hosts_skip. }
  destruct Hstart as [last_err Hstart].
  assert (Hlen : length (sent (with_sent k0 (map (fun h' => mk_request h' path params) pre)))
                 = (length (sent k0) + length pre)%nat).
  { simpl. by rewrite length_app, length_map. }
  assert (Hasked : with_sent (with_sent k0 (map (fun h' => mk_request h' path params) pre))
                     [mk_request h path params] = with_sent k0 asked).
  { rewrite with_sent_app. unfold asked. by rewrite map_app. }
  split.
  - intros Hans. rewrite Hstart. cbn [try_hosts]. unfold client_get.
    rewrite Hlen. fold answer. by rewrite Hans, Hasked.
  - intros code Hans Hok. rewrite Hstart. cbn [try_hosts]. unfold client_get.
    rewrite Hlen. fold answer. rewrite Hans.
    assert ((500 <=? code) = false) as ->.
    { unfold is_success in Hok. apply andb_true_iff in Hok as [_ Hlt]. lia. }
    rewrite Hok, Hasked.
    destruct (String.eqb_spec h p) as [->|Hne]; [|done].
    rewrite set_host_pinned; [done|]. by simpl.
Qed.

(** ** The capability state of [fetch_trades_since] *)

Lemma kalshi_get_capability net path params k :
  min_ts_supported (kalshi_get net path params k).1 = min_ts_supported k.
Proof.
  by destruct (resilient_get_log net path params k) as (_ & _ & _ & Hm).
Qed.

Lemma fetch_trades_since_split net min_ts_ms limit k :
  fetch_trades_since net min_ts_ms limit k =
  match (probe_min_ts net min_ts_ms k).2 with
  | Some e => ((probe_min_ts net min_ts_ms k).1, inl e)
  | None => fetch_after_probe net min_ts_ms limit (probe_min_ts net min_ts_ms k).1
  end.
Proof.
  unfold fetch_trades_since, fetch_after_probe.
  by destruct (probe_min_ts net min_ts_ms k) as [k1 [e|]].
Qed.

(** The probe leaves a known state as it is; from the unknown state it
    either settles the state or re-raises and leaves it unknown. *)
Lemma probe_min_ts_spec net min_ts_ms k :
  let p := probe_min_ts net min_ts_ms k in
  match min_ts_supported k with
  | Some b => p = (k, None)
  | None =>
      match p.2 with
      | None => min_ts_supported p.1 <> None
      | Some _ => min_ts_supported p.1 = None
      end
  end.
Proof.
  unfold probe_min_ts.
  destruct (min_ts_supported k) as [b|] eqn:Hk; [done|].
  pose proof (kalshi_get_capability net trades_path (trades_params 1 (Some min_ts_ms)) k) as Hc.
  destruct (kalshi_get net trades_path (trades_params 1 (Some min_ts_ms)) k) as [k1 r].
  cbn [fst] in Hc.
  destruct r as [e|data]; [|done].
  destruct e as [code| | | |]; try done.
  destruct (code =? 400); [done|]. cbn [fst snd]. congruence.
Qed.

(** After the probe, the state stays as it is or goes from supported to
    unsupported. *)
Lemma fetch_after_probe_spec net min_ts_ms limit k :
  let res := fetch_after_probe net min_ts_ms limit k in
  min_ts_supported res.1 = min_ts_supported k \/
  (min_ts_supported k = Some true /\ min_ts_supported res.1 = Some false).
Proof.
  unfold fetch_after_probe.
  set (params := trades_params limit
                   (if is_true_opt (min_ts_supported k) then Some min_ts_ms else None)).
  pose proof (kalshi_get_capability net trades_path params k) as Hc.
  destruct (kalshi_get net trades_path params k) as [k2 r]. cbn [fst] in Hc.
  destruct r as [e|data]; [|by left].
  destruct e as [code| | | |]; try by left.
  destruct ((code =? 400) && is_true_opt (min_ts_supported k2)) eqn:Hretry; [|by left].
  apply andb_true_iff in Hretry as [_ Hsup].
  pose proof (kalshi_get_capability net trades_path (trades_params limit None)
                (set_min_ts_supported false k2)) as Hc2.
  destruct (kalshi_get net trades_path (trades_params limit None)
              (set_min_ts_supported false k2)) as [k4 r'].
  cbn [fst min_ts_supported set_min_ts_supported] in Hc2.
  right. rewrite <- Hc. split.
  - by destruct (min_ts_supported k2) as [[|]|].
  - by destruct r'.
Qed.

Lemma fetch_capability_monotone net min_ts_ms limit k :
  (cap_rank (min_ts_supported k)
   <= cap_rank (min_ts_supported (fetch_trades_since net min_ts_ms limit k).1))%nat /\
  (forall trades, (fetch_trades_since net min_ts_ms limit k).2 = inr trades ->
                  min_ts_supported (fetch_trades_since net min_ts_ms limit k).1 <> None).
Proof.
  rewrite fetch_trades_since_split.
  pose proof (probe_min_ts_spec net min_ts_ms k) as Hprobe. cbv zeta in Hprobe.
  destruct (probe_min_ts net min_ts_ms k) as [k1 reraised]. cbn [fst snd] in *.
  pose proof (fetch_after_probe_spec net min_ts_ms limit k1) as Hmain. cbv zeta in Hmain.
  destruct (min_ts_supported k) as [b|] eqn:Hk.
  - inversion Hprobe; subst k1 reraised.
    destruct Hmain as [Hm|[Hm1 Hm2]].
    + rewrite Hm, Hk. split; [lia | done].
    + rewrite Hm2. rewrite Hk in Hm1. inversion Hm1; subst b. split; [simpl; lia | done].
  - destruct reraised as [e|].
    + cbn [fst snd]. split; [simpl; lia | done].
    + destruct Hmain as [Hm|[Hm1 Hm2]].
      * rewrite Hm. split; [simpl; lia | done].
      * rewrite Hm2. split; [simpl; lia | done].
Qed.

Lemma run_call_capability_monotone net c k :
  (cap_rank (min_ts_supported k) <= cap_rank (min_ts_supported (run_call net c k)))%nat.
Proof.
  destruct c as [min_ts_ms limit|ticker|]; cbn [run_call].
  - apply fetch_capability_monotone.
  - by rewrite kalshi_get_capability.
  - by rewrite kalshi_get_capability.
Qed.

(** X6.  Through any sequence of calls of the fetcher the capability state
    only moves forward, from unknown to supported to unsupported, never
    back; and a [fetch_trades_since] call that returns trades leaves the
    state known. *)
Theorem capability_only_moves_forward :
  (forall calls k,
     (cap_rank (min_ts_supported k) <= cap_rank (min_ts_supported (run_calls calls k)))%nat) /\
  (forall net min_ts_ms limit k trades,
     (fetch_trades_since net min_ts_ms limit k).2 = inr trades ->
     min_ts_supported (fetch_trades_since net min_ts_ms limit k).1 <> None).
Proof.
  split.
  - induction calls as [|[net c] calls IH]; intros k; cbn [run_calls fold_left]; [lia|].
    fold (run_calls calls (run_call net c k)).
    pose proof (run_call_capability_monotone net c k). specialize (IH (run_call net c k)). lia.
  - intros net min_ts_ms limit k trades. apply fetch_capability_monotone.
Qed.

Lemma fetch_after_probe_unsupported net min_ts_ms limit k :
  min_ts_supported k = Some false ->
  fetch_after_probe net min_ts_ms limit k =
  ((kalshi_get net trades_path (trades_params limit None) k).1,
   lift_trades (kalshi_get net trades_path (trades_params limit None) k).2).
Proof.
  intros Hk. unfold fetch_after_probe. rewrite Hk. cbn [is_true_opt].
  pose proof (kalshi_get_capability net trades_path (trades_params limit None) k) as Hc.
  destruct (kalshi_get net trades_path (trades_params limit None) k) as [k2 r]. cbn [fst] in Hc.
  destruct r as [e|data]; [|reflexivity].
  destruct e; try reflexivity.
  rewrite Hc, Hk. cbn [is_true_opt]. by rewrite andb_false_r.
Qed.

(** X7.  On first use (state unknown), when the probe request raises the
    HTTP status error 400 or any error that is not an HTTP status error (all
    hosts down, for instance), the capability is set to unsupported, and the
    call goes on with one unfiltered [KALSHI.get], whose result it returns or
    raises. *)
Theorem probe_failure_disables_filter net min_ts_ms limit k k1 e :
  min_ts_supported k = None ->
  kalshi_get net trades_path (trades_params 1 (Some min_ts_ms)) k = (k1, inl e) ->
  e = HTTPStatusError 400 \/ is_http_status_error e = false ->
  let main := kalshi_get net trades_path (trades_params limit None)
                (set_min_ts_supported false k1) in
  fetch_trades_since net min_ts_ms limit k = (main.1, lift_trades main.2) /\
  min_ts_supported (fetch_trades_since net min_ts_ms limit k).1 = Some false.
Proof.
  intros Hk Hprobe He main.
  assert (Hp : probe_min_ts net min_ts_ms k = (set_min_ts_supported false k1, None)).
  { unfold probe_min_ts. rewrite Hk, Hprobe.
    destruct He as [->|He]; [done|]. by destruct e. }
  assert (Heq : fetch_trades_since net min_ts_ms limit k = (main.1, lift_trades main.2)).
  { rewrite fetch_trades_since_split, Hp. cbn [fst snd].
    by rewrite fetch_after_probe_unsupported. }
  split; [done|]. rewrite Heq. cbn [fst]. unfold main.
  by rewrite kalshi_get_capability.
Qed.

(** X8.  On first use, when the probe request raises an HTTP status error
    other than 400, [fetch_trades_since] raises that error without sending
    the main request, and the capability stays unknown, so that the next
    call probes again. *)
Theorem probe_error_reraised net min_ts_ms limit k k1 code :
  min_ts_supported k = None ->
  kalshi_get net trades_path (trades_params 1 (Some min_ts_ms)) k
    = (k1, inl (HTTPStatusError code)) ->
  code <> 400 ->
  fetch_trades_since net min_ts_ms limit k = (k1, inl (HTTPStatusError code)) /\
  min_ts_supported k1 = None.
Proof.
  intros Hk Hprobe Hcode.
  split.
  - unfold fetch_trades_since, probe_min_ts. rewrite Hk, Hprobe.
    by destruct (Z.eqb_spec code 400).
  - pose proof (kalshi_get_capability net trades_path (trades_params 1 (Some min_ts_ms)) k) as Hc.
    rewrite Hprobe in Hc. cbn [fst] in Hc. congruence.
Qed.


(** ** Timestamps, categories and topics *)

(** X9.  A timestamp given in epoch seconds and the same instant given in
    epoch milliseconds parse to the same value, the milliseconds, whenever
    the seconds are above 10,000,000 and at most 10,000,000,000; the wall
    clock plays no part. *)
Theorem parse_ts_seconds_and_millis_agree iso_to_ms now now' s s' v :
  int_of_digits s = Some v ->
  int_of_digits s' = Some (1000 * v) ->
  10000000 < v <= 10000000000 ->
  parse_ts_to_ms iso_to_ms now (Some s) = 1000 * v /\
  parse_ts_to_ms iso_to_ms now' (Some s') = 1000 * v.
Proof.
  intros Hs Hs' Hv. unfold parse_ts_to_ms. rewrite Hs, Hs'.
  destruct (Z.gtb_spec v 10000000000); [lia|].
  destruct (Z.gtb_spec (1000 * v) 10000000000); [|lia].
  split; lia.
Qed.

Lemma ascii_upper_idem c : ascii_upper (ascii_upper c) = ascii_upper c.
Proof. destruct c as [[] [] [] [] [] [] [] []]; reflexivity. Qed.

Lemma upper_idem s : upper (upper s) = upper s.
Proof. induction s as [|c s IH]; simpl; [done|]. by rewrite ascii_upper_idem, IH. Qed.

Lemma upper_empty s : upper s = "" <-> s = "".
Proof. destruct s; simpl; split; intros H; done. Qed.

Lemma categorize_ticker_cases tk :
  categorize_ticker tk = "crypto" \/ categorize_ticker tk = "macro" \/
  categorize_ticker tk = "sports" \/ categorize_ticker tk = "other".
Proof.
  unfold categorize_ticker.
  destruct (contains "BTC" (upper tk) || contains "CRYPTO" (upper tk)); [tauto|].
  destruct (existsb _ _); [tauto|].
  destruct (existsb _ _); tauto.
Qed.

(** X10.  [categorize_ticker] always answers one of the four categories,
    does not depend on the case of the symbol, and gives "crypto" the
    precedence: a symbol that contains BTC or CRYPTO is crypto whatever else
    it contains. *)
Theorem categorize_ticker_spec tk :
  In (categorize_ticker tk) ["crypto"; "macro"; "sports"; "other"] /\
  categorize_ticker (upper tk) = categorize_ticker tk /\
  (contains "BTC" (upper tk) || contains "CRYPTO" (upper tk) = true ->
   categorize_ticker tk = "crypto").
Proof.
  split_and!.
  - destruct (categorize_ticker_cases tk) as [-> | [-> | [-> | ->]]]; simpl; tauto.
  - unfold categorize_ticker. by rewrite upper_idem.
  - intros H. unfold categorize_ticker. by rewrite H.
Qed.

(** X11.  A subscriber's topic matches a symbol exactly when the topic is
    "all" or is the symbol's category; hence a topic that is neither "all"
    nor one of the four categories matches no symbol at all. *)
Theorem topic_match_spec user_topic tk :
  (topic_match user_topic tk = true <->
   user_topic = "all" \/ categorize_ticker tk = user_topic) /\
  (~ In user_topic ["all"; "crypto"; "macro"; "sports"; "other"] ->
   topic_match user_topic tk = false).
Proof.
  assert (Hiff : topic_match user_topic tk = true <->
                 user_topic = "all" \/ categorize_ticker tk = user_topic).
  { unfold topic_match. rewrite orb_true_iff, !String.eqb_eq. tauto. }
  split; [done|].
  intros Hnot. apply not_true_is_false. intros Hm.
  apply Hnot. apply Hiff in Hm as [-> | <-]; [by left|].
  destruct (categorize_ticker_cases tk) as [-> | [-> | [-> | ->]]]; simpl; tauto.
Qed.

(** ** [median] *)

Lemma merge_sort_le_unique (l1 l2 : list Z) :
  l1 ≡ₚ l2 -> merge_sort Z.le l1 = merge_sort Z.le l2.
Proof.
  intros Hp. apply (Sorted_unique Z.le).
  - apply Sorted_merge_sort. apply _.
  - apply Sorted_merge_sort. apply _.
  - by rewrite !merge_sort_Permutation.
Qed.

Lemma median_bounds_aux (s : list Z) a b i :
  (forall x, In x s -> a <= x <= b) -> (i < length s)%nat -> a <= nth i s 0 <= b.
Proof. intros Hall Hi. apply Hall. by apply nth_In. Qed.

Lemma median_Permutation (l1 l2 : list Z) : l1 ≡ₚ l2 -> median l1 = median l2.
Proof.
  intros Hp. unfold median.
  destruct l1 as [|x1 l1], l2 as [|x2 l2]; try done.
  - by apply Permutation_nil_l in Hp.
  - by apply Permutation_nil_r in Hp.
  - by rewrite (merge_sort_le_unique _ _ Hp).
Qed.

(** X12.  The median does not depend on the order of the list, is 0 for the
    empty list, and for a non-empty list lies between any bounds that hold
    for all its elements. *)
Theorem median_spec :
  median [] = 0%Q /\
  (forall l1 l2 : list Z, l1 ≡ₚ l2 -> median l1 = median l2) /\
  (forall (l : list Z) a b,
     l <> [] -> (forall x, In x l -> a <= x <= b) ->
     (inject_Z a <= median l)%Q /\ (median l <= inject_Z b)%Q).
Proof.
  split_and!.
  - reflexivity.
  - apply median_Permutation.
  - intros l a b Hne Hall. unfold median.
    destruct l as [|x0 l0]; [done|].
    set (l := x0 :: l0) in *.
    set (s := merge_sort Z.le l).
    assert (Hperm : s ≡ₚ l) by apply merge_sort_Permutation.
    assert (Hlen : (0 < length s)%nat).
    { rewrite (Permutation_length Hperm). simpl. lia. }
    assert (Hs : forall x, In x s -> a <= x <= b).
    { intros x Hx. apply Hall. by rewrite <- Hperm. }
    assert (Hmid : (length s / 2 < length s)%nat) by (apply Nat.div_lt; lia).
    pose proof (median_bounds_aux s a b (length s / 2) Hs Hmid) as Hhi.
    assert (Hmid' : (length s / 2 - 1 < length s)%nat) by lia.
    pose proof (median_bounds_aux s a b (length s / 2 - 1) Hs Hmid') as Hlo.
    cbv zeta. fold s.
    set (hi := nth (length s / 2) s 0) in *.
    set (lo := nth (length s / 2 - 1) s 0) in *.
    clearbody hi lo.
    destruct (Nat.odd (length s)).
    + split; rewrite <- Zle_Qle; lia.
    + unfold Qle, Qdiv, Qmult, Qinv, inject_Z. simpl. split; lia.
Qed.

(** ** The detector *)

Lemma ticker_recent_counts_24h_stats d now ticker tk ts_ms :
  ticker_recent_counts_24h (update_last_trade_ts d tk ts_ms) now ticker
  = ticker_recent_counts_24h d now ticker.
Proof. reflexivity. Qed.

(** X13.  The sample of sizes that feeds the median holds at most 5000
    counts, each the count of a stored row of that instrument not older than
    24 hours; and as long as at most 5000 rows qualify, its median is the
    median over all qualifying rows, however rows of equal timestamp are
    ordered. *)
Theorem ticker_recent_counts_24h_spec d now ticker :
  let sample := ticker_recent_counts_24h d now ticker in
  let rows := recent_rows d now ticker in
  (length sample <= 5000)%nat /\
  (forall c, In c sample ->
     exists r, In r (prints d) /\ p_ticker r = ticker /\
               now - 86400000 <= p_ts_ms r /\ p_count r = c) /\
  ((length rows <= 5000)%nat -> median sample = median (map p_count rows)).
Proof.
  intros sample rows. unfold sample, ticker_recent_counts_24h. cbv zeta.
  fold (recent_rows d now ticker). fold rows.
  set (ordered := merge_sort newer_first rows).
  assert (Hperm : ordered ≡ₚ rows) by apply merge_sort_Permutation.
  split_and!.
  - rewrite length_map, length_take. lia.
  - intros c Hc. apply in_map_iff in Hc as (r & <- & Hr).
    assert (Hin : In r rows).
    { apply list_elem_of_In. rewrite <- Hperm. apply list_elem_of_In.
      rewrite <- (take_drop 5000 ordered). apply in_app_iff. by left. }
    unfold rows, recent_rows in Hin. apply filter_In in Hin as [Hin Hcond].
    apply andb_true_iff in Hcond as [Htk Hts].
    exists r. split_and!; [done | by apply String.eqb_eq | lia | done].
  - intros Hlen. apply median_Permutation.
    rewrite take_ge by (rewrite (Permutation_length Hperm); lia).
    by rewrite Hperm.
Qed.

Lemma Qle_bool_false_lt (x y : Q) : Qle_bool x y = false <-> (y < x)%Q.
Proof.
  split.
  - intros H. apply Qnot_le_lt. intros Hle. apply Qle_bool_iff in Hle. congruence.
  - intros H. apply not_true_is_false. intros Hle. apply Qle_bool_iff in Hle.
    by apply Qlt_not_le in H.
Qed.

(** X14.  A trade is tagged [Unusual size] exactly when the median of the
    sizes stored for its instrument over the last 24 hours, taken before the
    trade itself is stored, is positive and the trade's size is at least five
    times that median. *)
Theorem unusual_size_spec cfg now d trade_id ts_ms ticker side count yes_cents notional :
  let r := tag_and_store cfg now d trade_id ts_ms ticker side count yes_cents notional in
  let med := median (ticker_recent_counts_24h d now ticker) in
  (In "Unusual size" r.2 <-> (0 < med)%Q /\ (5 * med <= inject_Z count)%Q) /\
  (In "Unusual size" r.1.2 <-> (0 < med)%Q /\ (5 * med <= inject_Z count)%Q).
Proof.
  unfold tag_and_store. cbv zeta. cbn [fst snd].
  rewrite ticker_recent_counts_24h_stats.
  set (med := median (ticker_recent_counts_24h d now ticker)).
  set (sb := negb (last_trade_ts_for_ticker d ticker =? 0) && _).
  set (us := negb (Qle_bool med 0) && Qle_bool (5 * med) (inject_Z count)).
  assert (Hus : us = true <-> (0 < med)%Q /\ (5 * med <= inject_Z count)%Q).
  { unfold us. rewrite andb_true_iff, negb_true_iff, Qle_bool_false_lt, Qle_bool_iff. tauto. }
  rewrite <- Hus.
  set (acc := 3 <=? _).
  destruct sb, us, acc; simpl; split; intuition congruence.
Qed.

(** X15.  A trade is tagged [Accumulation] exactly when at least three
    stored rows of its instrument, the trade's own row included if it has just
    been inserted, have a timestamp not more than ten minutes before the
    trade's and a notional of at least [DEFAULT_THRESH]; rows later than the
    trade count too. *)
Theorem accumulation_spec cfg now d trade_id ts_ms ticker side count yes_cents notional :
  let r := tag_and_store cfg now d trade_id ts_ms ticker side count yes_cents notional in
  let before := count_recent_high_value d ticker (ts_ms - 600000) (DEFAULT_THRESH cfg) in
  let own := if negb (has_trade_id d trade_id) && Qle_bool (DEFAULT_THRESH cfg) notional
             then 1 else 0 in
  (In "Accumulation" r.2 <-> 3 <= before + own) /\
  count_recent_high_value r.1.1 ticker (ts_ms - 600000) (DEFAULT_THRESH cfg) = before + own.
Proof.
  unfold tag_and_store. cbv zeta. cbn [fst snd].
  set (sb := negb (last_trade_ts_for_ticker d ticker =? 0) && _).
  set (us := negb (Qle_bool _ 0) && _).
  set (flags2 := if us then _ else _).
  set (d1 := update_last_trade_ts d ticker ts_ms).
  assert (Hcount :
    count_recent_high_value
      (store_print d1 trade_id ts_ms ticker side count yes_cents notional flags2)
      ticker (ts_ms - 10 * 60 * 1000) (DEFAULT_THRESH cfg)
    = count_recent_high_value d ticker (ts_ms - 600000) (DEFAULT_THRESH cfg)
      + (if negb (has_trade_id d trade_id) && Qle_bool (DEFAULT_THRESH cfg) notional
         then 1 else 0)).
  { destruct (store_print_cases d1 trade_id ts_ms ticker side count yes_cents notional flags2)
      as [[Hh ->]|[Hh ->]].
    - change (has_trade_id d1 trade_id) with (has_trade_id d trade_id) in Hh.
      rewrite Hh. cbn [negb andb]. unfold count_recent_high_value. cbn [prints d1 update_last_trade_ts].
      change (10 * 60 * 1000) with 600000. lia.
    - change (has_trade_id d1 trade_id) with (has_trade_id d trade_id) in Hh.
      rewrite Hh. cbn [negb andb]. unfold count_recent_high_value.
      cbn [prints d1 update_last_trade_ts]. change (10 * 60 * 1000) with 600000.
      rewrite List.filter_app, length_app, Nat2Z.inj_add. f_equal.
      cbn [List.filter print_row p_ticker p_ts_ms p_notional_usd].
      rewrite String.eqb_refl.
      assert ((ts_ms - 600000 <=? ts_ms) = true) as -> by lia.
      cbn [andb]. by destruct (Qle_bool (DEFAULT_THRESH cfg) notional). }
  split; [|exact Hcount].
  rewrite Hcount.
  set (n := _ + _).
  destruct (Z.leb_spec 3 n) as [Hn|Hn].
  - split; [done|]. intros _. apply in_app_iff. right. by left.
  - split; [|lia]. intros Hin. exfalso.
    unfold flags2 in Hin. destruct sb, us; simpl in Hin; intuition congruence.
Qed.


(** ** The normaliser *)

(** X16.  [trade_notional_usd] prefers the dollar price to the cents price,
    whatever number or [null] the cents keys hold.  And a [yes_price] key
    that is present with [null] hides the [price] key from it: when the
    dollar price is absent or [null] as well, the notional is 0 and the loop
    skips the trade, whatever number [price] holds, although
    [trade_core_fields] takes [yes_cents] from [price] in that case. *)
Theorem trade_notional_usd_precedence cfg iso_to_ms now send active tr b :
  (forall d, tr_yes_price_dollars tr = Some (Some d) ->
     trade_notional_usd tr = (inject_Z (or_int (tr_count tr) (tr_size tr)) * d)%Q) /\
  (number_of (tr_yes_price_dollars tr) = None -> tr_yes_price tr = Some None ->
     trade_notional_usd tr = 0%Q /\
     core_yes_cents (trade_core_fields iso_to_ms now tr)
     = int_of_float (or_else (number_of (tr_price tr)) 0%Q) /\
     process_trade cfg iso_to_ms now send active tr b = (b, false)).
Proof.
  split.
  - intros d Hd. unfold trade_notional_usd. by rewrite Hd.
  - intros Hd Hy.
    assert (Hz : trade_notional_usd tr = 0%Q).
    { unfold trade_notional_usd. rewrite Hy.
      by destruct (tr_yes_price_dollars tr) as [[q|]|]. }
    split_and!; [done | |].
    + unfold trade_core_fields. cbn [core_yes_cents]. unfold or_price. by rewrite Hy.
    + rewrite process_trade_unfold. cbv zeta. by rewrite Hz.
Qed.

Lemma synthetic_id_nonempty tr : synthetic_id tr <> "".
Proof. unfold synthetic_id. simpl. discriminate. Qed.

Lemma trade_core_fields_facts iso_to_ms now tr :
  let f := trade_core_fields iso_to_ms now tr in
  core_trade_id f <> "" /\ core_side f <> "" /\ upper (core_ticker f) = core_ticker f.
Proof.
  unfold trade_core_fields.
  cbn [core_trade_id core_side core_ticker]. split_and!.
  - destruct (or_text (tr_id tr) (tr_trade_id tr)) as [s|]; [|apply synthetic_id_nonempty].
    destruct (String.eqb_spec s ""); [apply synthetic_id_nonempty | done].
  - destruct (String.eqb_spec (upper (or_else (or_text (tr_side tr) (tr_direction tr)) "")) "");
      [discriminate | done].
  - apply upper_idem.
Qed.

(** X17.  The fields [trade_core_fields] returns are normalised: the trade
    identifier and the side are never empty, the instrument and the side are
    in upper case, and the count is the one [trade_notional_usd] multiplies
    the price with. *)
Theorem trade_core_fields_normalised iso_to_ms now tr :
  let f := trade_core_fields iso_to_ms now tr in
  core_trade_id f <> "" /\
  core_side f <> "" /\
  upper (core_ticker f) = core_ticker f /\
  upper (core_side f) = core_side f /\
  core_count f = or_int (tr_count tr) (tr_size tr).
Proof.
  unfold trade_core_fields.
  cbn [core_trade_id core_side core_ticker core_count]. split_and!.
  - destruct (or_text (tr_id tr) (tr_trade_id tr)) as [s|]; [|apply synthetic_id_nonempty].
    destruct (String.eqb_spec s ""); [apply synthetic_id_nonempty | done].
  - destruct (String.eqb_spec (upper (or_else (or_text (tr_side tr) (tr_direction tr)) "")) "");
      [discriminate | done].
  - apply upper_idem.
  - destruct (String.eqb (upper (or_else (or_text (tr_side tr) (tr_direction tr)) "")) "");
      [reflexivity | apply upper_idem].
  - reflexivity.
Qed.



(** ** Invariants of the store *)

Lemma grows_refl d : grows d d.
Proof. exists []. by rewrite app_nil_r. Qed.

Lemma grows_trans d1 d2 d3 : grows d1 d2 -> grows d2 d3 -> grows d1 d3.
Proof.
  intros (n1 & H1 & F1 & K1) (n2 & H2 & F2 & K2).
  exists (n1 ++ n2). rewrite H2, H1, <- app_assoc. split_and!; [done | by apply Forall_app | auto].
Qed.

Lemma grows_same_prints d d' : prints d' = prints d -> grows d d'.
Proof.
  intros Hp. exists []. rewrite app_nil_r. split_and!; [done | done |].
  unfold keys_unique. by rewrite Hp.
Qed.

Lemma has_trade_id_false d trade_id :
  has_trade_id d trade_id = false -> ~ In trade_id (map p_trade_id (prints d)).
Proof.
  unfold has_trade_id. intros Hh Hin.
  apply in_map_iff in Hin as (r & Hr & Hin).
  assert (existsb (fun r0 => String.eqb (p_trade_id r0) trade_id) (prints d) = true).
  { apply existsb_exists. exists r. split; [done|]. by apply String.eqb_eq. }
  congruence.
Qed.

Lemma process_trade_grows cfg iso_to_ms now send active tr b :
  grows (b_db b) (b_db (process_trade cfg iso_to_ms now send active tr b).1).
Proof.
  rewrite process_trade_unfold. cbv zeta.
  destruct (Qle_bool (trade_notional_usd tr) 0) eqn:Hpos; [apply grows_refl|].
  match goal with
  | |- context [tag_and_store ?c ?n ?d ?i ?t ?k ?s ?cn ?y ?q] =>
      destruct (tag_and_store_spec c iso_to_ms n d i t k s cn y q) as (_ & _ & Hp & _)
  end.
  destruct (trade_core_fields_facts iso_to_ms now tr) as (Hid & Hside & Hup).
  assert (Hgoal : forall d', prints d' = prints (tag_and_store cfg now (b_db b)
            (core_trade_id (trade_core_fields iso_to_ms now tr))
            (core_ts_ms (trade_core_fields iso_to_ms now tr))
            (core_ticker (trade_core_fields iso_to_ms now tr))
            (core_side (trade_core_fields iso_to_ms now tr))
            (core_count (trade_core_fields iso_to_ms now tr))
            (core_yes_cents (trade_core_fields iso_to_ms now tr))
            (trade_notional_usd tr)).1.1 ->
          grows (b_db b) d').
  { intros d' Hd'. destruct Hp as [[Hh Hp]|[Hh Hp]].
    - apply grows_same_prints. by rewrite Hd', Hp.
    - eexists. split; [by rewrite Hd', Hp|]. split.
      + constructor; [|constructor]. unfold row_ok. cbn [print_row p_notional_usd p_trade_id p_ticker p_side].
        split_and!; try done. by apply Qle_bool_false_lt.
      + unfold keys_unique. rewrite Hd', Hp, map_app. cbn [map print_row p_trade_id].
        intros Hnd. apply NoDup_app. split_and!; [done | | apply NoDup_singleton].
        intros x Hx Hx'. apply list_elem_of_In in Hx. apply list_elem_of_singleton in Hx'. subst x.
        by apply (has_trade_id_false _ _ Hh). }
  destruct (dispatch _ _ _ _ _ _ _ _ _ _).2; by apply Hgoal.
Qed.

Lemma process_trades_grows cfg iso_to_ms env active trades :
  forall i b, grows (b_db b) (b_db (process_trades cfg iso_to_ms env active i trades b).1).
Proof.
  induction trades as [|tr trades IH]; intros i b; cbn [process_trades]; [apply grows_refl|].
  pose proof (process_trade_grows cfg iso_to_ms (e_now env i) (e_send env i) active tr b) as H1.
  destruct (process_trade cfg iso_to_ms (e_now env i) (e_send env i) active tr b) as [b1 raised].
  cbn [fst] in H1. destruct raised; [done|].
  eapply grows_trans; [exact H1 | apply IH].
Qed.

Lemma ingest_cycle_grows cfg iso_to_ms env st :
  grows (db st) (db (ingest_cycle cfg iso_to_ms env st)).
Proof.
  destruct (alive st) eqn:Halive.
  2: { rewrite ingest_cycle_dead by done. apply grows_refl. }
  destruct (fetched env st) as [e|[|tr trades]] eqn:Hbatch.
  - rewrite (ingest_cycle_no_batch cfg iso_to_ms env st Halive) by eauto. apply grows_refl.
  - rewrite (ingest_cycle_no_batch cfg iso_to_ms env st Halive) by eauto. apply grows_refl.
  - destruct (ingest_cycle_batch cfg iso_to_ms env st tr trades Halive Hbatch) as (_ & Hp & _).
    pose proof (process_trades_grows cfg iso_to_ms env (active_subs (e_subs env)) (tr :: trades) 0
                  {| b_db := db st; b_out := outbox st; b_max_seen := last_ts st |}) as Hg.
    cbn [b_db] in Hg. eapply grows_trans; [exact Hg|]. by apply grows_same_prints.
Qed.

Lemma ingest_run_grows cfg iso_to_ms envs :
  forall st, grows (db st) (db (ingest_run cfg iso_to_ms envs st)).
Proof.
  induction envs as [|env envs IH]; intros st; cbn [ingest_run fold_left]; [apply grows_refl|].
  fold (ingest_run cfg iso_to_ms envs (ingest_cycle cfg iso_to_ms env st)).
  eapply grows_trans; [apply ingest_cycle_grows | apply IH].
Qed.

(** X19.  The loop keeps the primary key of [prints]: if no two stored rows
    share a [trade_id], the same holds after any run of the loop. *)
Theorem prints_key_unique cfg iso_to_ms envs st :
  keys_unique (db st) -> keys_unique (db (ingest_run cfg iso_to_ms envs st)).
Proof. by destruct (ingest_run_grows cfg iso_to_ms envs st) as (_ & _ & _ & Hk). Qed.

(** X20.  The loop only ever appends to [prints], and every row it appends
    has a positive notional, a non-empty [trade_id], an upper-case instrument
    and a non-empty side. *)
Theorem prints_rows_well_formed cfg iso_to_ms envs st :
  exists new,
    prints (db (ingest_run cfg iso_to_ms envs st)) = prints (db st) ++ new /\
    Forall row_ok new.
Proof.
  destruct (ingest_run_grows cfg iso_to_ms envs st) as (new & Hp & Hf & _). by exists new.
Qed.

(** X21.  Processing a trade touches the per-instrument state of its own
    instrument only: for every other instrument the recorded
    [last_trade_ts_ms] is as before, and the [meta] table is not written. *)
Theorem process_trade_frame cfg iso_to_ms now send active tr b tk :
  let b' := (process_trade cfg iso_to_ms now send active tr b).1 in
  tk <> core_ticker (trade_core_fields iso_to_ms now tr) ->
  last_trade_ts_for_ticker (b_db b') tk = last_trade_ts_for_ticker (b_db b) tk /\
  meta (b_db b') = meta (b_db b).
Proof.
  intros b' Hne. split; [|apply process_trade_meta].
  unfold b'. rewrite process_trade_unfold. cbv zeta.
  destruct (Qle_bool (trade_notional_usd tr) 0); [done|].
  match goal with
  | |- context [tag_and_store ?c ?n ?d ?i ?t ?k ?s ?cn ?y ?q] =>
      destruct (tag_and_store_spec c iso_to_ms n d i t k s cn y q) as (Hs & _)
  end.
  unfold last_trade_ts_for_ticker.
  destruct (dispatch _ _ _ _ _ _ _ _ _ _).2; cbn [fst b_db];
    by rewrite Hs, lookup_insert_ne.
Qed.

(** ** Dispatch *)

Lemma active_subs_cons s subs :
  active_subs (s :: subs) =
  if s_alerts_on s =? 1
  then (s_user_id s, s_thresh_usd s, s_topic s, s_tz s) :: active_subs subs
  else active_subs subs.
Proof. unfold active_subs. cbn [List.filter]. by destruct (s_alerts_on s =? 1). Qed.

(** X22.  When the transport raises nothing that escapes [notify_user], a
    trade is sent exactly once to each subscriber whose alerts are on, whose
    threshold the notional reaches and whose topic matches the instrument,
    in the order of the table, and to nobody else; each message carries the
    trade's tags and the subscriber's time zone. *)
Theorem dispatch_reaches_the_qualifying send subs ticker side notional count yes_cents ts_ms flags out :
  (forall uid, escapes (send uid) = false) ->
  let d := dispatch send (active_subs subs) ticker side notional count yes_cents ts_ms flags out in
  d.2 = false /\
  exists new,
    d.1 = out ++ new /\
    map (fun p => (a_uid p.1, a_tz p.1)) new
    = map (fun s => (s_user_id s, s_tz s)) (List.filter (qualifies ticker notional) subs) /\
    Forall (fun p => a_ticker p.1 = ticker /\ a_notional p.1 = notional /\
                     a_ts_ms p.1 = ts_ms /\ a_flags p.1 = flags) new.
Proof.
  intros Hsend. cbv zeta. revert out.
  induction subs as [|s subs IH]; intros out.
  - cbn. split; [done|]. exists []. by rewrite app_nil_r.
  - rewrite active_subs_cons. cbn [List.filter].
    destruct (s_alerts_on s =? 1) eqn:Hon.
    2: { assert (qualifies ticker notional s = false) as ->
           by (unfold qualifies; by rewrite Hon).
         apply IH. }
    cbn [dispatch].
    destruct (Qle_bool (s_thresh_usd s) notional && topic_match (s_topic s) ticker) eqn:Hc.
    2: { assert (qualifies ticker notional s = false) as ->
           by (unfold qualifies; by rewrite Hon, <- andb_assoc, Hc).
         apply IH. }
    assert (qualifies ticker notional s = true) as ->
      by (unfold qualifies; by rewrite Hon, <- andb_assoc, Hc).
    unfold notify_user. cbn [a_uid]. specialize (Hsend (s_user_id s)).
    set (al := {| a_uid := s_user_id s; a_ticker := ticker; a_side := side;
                  a_notional := notional; a_count := count; a_yes_cents := yes_cents;
                  a_ts_ms := ts_ms; a_flags := flags; a_tz := s_tz s |}).
    destruct (send (s_user_id s)) eqn:Hout; try discriminate Hsend.
    + destruct (IH (out ++ [(al, Delivered)])) as (Hr & new & Hn & Hm & Hf).
      split; [done|]. exists ((al, Delivered) :: new).
      rewrite Hn, <- app_assoc. split_and!; [done | by cbn [map]; rewrite Hm | by constructor].
    + destruct (IH (out ++ [(al, RaisesTelegramNetworkError)])) as (Hr & new & Hn & Hm & Hf).
      split; [done|]. exists ((al, RaisesTelegramNetworkError) :: new).
      rewrite Hn, <- app_assoc. split_and!; [done | by cbn [map]; rewrite Hm | by constructor].
Qed.

(** ** Restart and idle cycles *)

Lemma ingest_cycle_keeps_sync cfg iso_to_ms env st :
  persisted st = Some (last_ts st) ->
  persisted (ingest_cycle cfg iso_to_ms env st) = Some (last_ts (ingest_cycle cfg iso_to_ms env st)) /\
  last_ts st <= last_ts (ingest_cycle cfg iso_to_ms env st).
Proof.
  intros Hsync.
  destruct (ingest_cycle_watermark cfg iso_to_ms env st) as [[Hl Hp]|(Hl & Hp & _)].
  - rewrite Hp, Hl. split; [done | lia].
  - split; [done | lia].
Qed.

(** X23.  Once the persisted watermark equals the watermark in use (as it
    does after a start from a valid persisted value, and after every cycle
    that moved the watermark), it stays equal through any run, and a restart
    on the resulting store resumes at exactly the watermark the loop had
    reached. *)
Theorem restart_resumes_at_watermark cfg iso_to_ms envs st now k :
  persisted st = Some (last_ts st) ->
  0 <= last_ts st ->
  let st' := ingest_run cfg iso_to_ms envs st in
  persisted st' = Some (last_ts st') /\
  last_ts (ingest_start now k (db st')) = last_ts st'.
Proof.
  intros Hsync Hpos st'.
  assert (H : persisted st' = Some (last_ts st') /\ last_ts st <= last_ts st').
  { unfold st'. clear st'. revert st Hsync Hpos.
    induction envs as [|env envs IH]; intros st Hsync Hpos; cbn [ingest_run fold_left].
    - split; [done | lia].
    - fold (ingest_run cfg iso_to_ms envs (ingest_cycle cfg iso_to_ms env st)).
      destruct (ingest_cycle_keeps_sync cfg iso_to_ms env st Hsync) as [Hs1 Hl1].
      destruct (IH _ Hs1 ltac:(lia)) as [Hs2 Hl2]. split; [done | lia]. }
  destruct H as [Hs Hl]. split; [done|].
  unfold ingest_start. cbn [last_ts]. unfold persisted in Hs. rewrite Hs.
  destruct (Z.leb_spec 0 (last_ts st')); [done | lia].
Qed.

Lemma process_trades_all_skipped cfg iso_to_ms env active trades :
  Forall (fun tr => Qle_bool (trade_notional_usd tr) 0 = true) trades ->
  forall i b, process_trades cfg iso_to_ms env active i trades b = (b, false).
Proof.
  induction 1 as [|tr trades Hz _ IH]; intros i b; cbn [process_trades]; [done|].
  rewrite process_trade_unfold. cbv zeta. rewrite Hz. apply IH.
Qed.

(** X24.  A cycle whose batch holds only trades of non-positive notional
    changes nothing but the fetcher: the store, the watermark, persisted or
    not, and the log of notifications are as before. *)
Theorem non_positive_batch_is_idle cfg iso_to_ms env st trades :
  alive st = true ->
  fetched env st = inr trades ->
  Forall (fun tr => Qle_bool (trade_notional_usd tr) 0 = true) trades ->
  ingest_cycle cfg iso_to_ms env st =
  {| kalshi := (fetch_trades_since (e_net env) (last_ts st) 1000 (kalshi st)).1;
     db := db st; last_ts := last_ts st; outbox := outbox st; alive := true |}.
Proof.
  intros Halive Hbatch Hall.
  pose proof (ingest_cycle_cases cfg iso_to_ms env st Halive) as Hc. cbv zeta in Hc.
  rewrite Hbatch in Hc. destruct trades as [|tr trades]; [done|].
  rewrite (process_trades_all_skipped cfg iso_to_ms env _ _ Hall) in Hc.
  cbn [fst snd b_max_seen b_db b_out] in Hc.
  by rewrite Z.gtb_ltb, Z.ltb_irrefl in Hc.
Qed.

(** ** The command handlers *)

Section Handler_facts.

Variable cfg : Config.
Variable zone_ok : string -> bool.

Lemma upsert_ok uid fresh update t :
  table_ok cfg t -> sub_ok cfg uid fresh ->
  (forall r, sub_ok cfg uid r -> sub_ok cfg uid (update r)) ->
  table_ok cfg (upsert uid fresh update t).
Proof.
  intros Ht Hfresh Hupd uid' r'. unfold upsert.
  destruct (t !! uid) as [r|] eqn:Hr; rewrite lookup_insert;
    destruct (decide (uid = uid')) as [<-|Hne]; try apply Ht.
  - intros [= <-]. apply Hupd. by apply Ht.
  - by intros [= <-].
Qed.

Lemma handle_ok uid c t : table_ok cfg t -> table_ok cfg (handle cfg zone_ok uid c t).
Proof.
  intros Ht. destruct c as [| |val|topic|tz_arg|]; cbn [handle].
  - apply upsert_ok; [done | |].
    + unfold sub_ok. simpl. tauto.
    + intros r (H1 & H2 & H3 & H4). unfold sub_ok. simpl. tauto.
  - apply upsert_ok; [done | |].
    + unfold sub_ok. simpl. tauto.
    + intros r (H1 & H2 & H3 & H4). unfold sub_ok. simpl. tauto.
  - unfold handle_thresh_input.
    destruct (Qle_bool 500 val) eqn:Hval; cbn [negb]; [|done].
    apply Qle_bool_iff in Hval.
    apply upsert_ok; [done | |].
    + unfold sub_ok. simpl. tauto.
    + intros r (H1 & H2 & H3 & H4). unfold sub_ok. simpl. tauto.
  - unfold set_topic_value.
    destruct (existsb (String.eqb topic) ["macro"; "crypto"; "sports"; "all"]) eqn:Htopic;
      cbn [negb]; [|done].
    assert (Hin : In topic ["all"; "macro"; "crypto"; "sports"]).
    { apply existsb_exists in Htopic as (x & Hx & Heq). apply String.eqb_eq in Heq. subst x.
      simpl in *. tauto. }
    apply upsert_ok; [done | |].
    + unfold sub_ok. simpl. tauto.
    + intros r (H1 & H2 & H3 & H4). unfold sub_ok. simpl. tauto.
  - unfold set_timezone_value. destruct (zone_ok tz_arg); cbn [negb]; [|done].
    apply upsert_ok; [done | |].
    + unfold sub_ok. simpl. tauto.
    + intros r (H1 & H2 & H3 & H4). unfold sub_ok. simpl. tauto.
  - unfold get_user_prefs, ensure_sub. cbn [fst].
    destruct (t !! uid) as [r|] eqn:Hr; [done|].
    intros uid' r'. rewrite lookup_insert.
    destruct (decide (uid = uid')) as [<-|Hne]; [|apply Ht].
    intros [= <-]. unfold sub_ok. simpl. tauto.
Qed.

Lemma run_commands_ok cmds :
  forall t, table_ok cfg t -> table_ok cfg (run_commands cfg zone_ok cmds t).
Proof.
  induction cmds as [|[uid c] cmds IH]; intros t Ht; cbn [run_commands fold_left]; [done|].
  apply IH. by apply handle_ok.
Qed.

(** X25.  Whatever commands the users send, every row of [subs] keeps its
    key as [user_id], an alert flag of 0 or 1, a topic among "all", "macro",
    "crypto" and "sports", and a threshold that is [DEFAULT_THRESH] or at
    least 500. *)
Theorem subs_rows_stay_valid cmds t :
  table_ok cfg t -> table_ok cfg (run_commands cfg zone_ok cmds t).
Proof. apply run_commands_ok. Qed.

(** X26.  No sequence of commands subscribes anybody to the category
    "other": starting from the empty table, a subscriber whose topic matches
    a symbol of that category has the topic "all". *)
Theorem other_category_reaches_all_only cmds uid r tk :
  run_commands cfg zone_ok cmds ∅ !! uid = Some r ->
  categorize_ticker tk = "other" ->
  topic_match (s_topic r) tk = true ->
  s_topic r = "all".
Proof.
  intros Hr Hcat Hmatch.
  assert (Hok : sub_ok cfg uid r).
  { eapply (run_commands_ok cmds ∅); [|exact Hr]. intros uid' r'. by rewrite lookup_empty. }
  destruct Hok as (_ & _ & Htopic & _).
  unfold topic_match in Hmatch. rewrite Hcat in Hmatch.
  apply orb_true_iff in Hmatch as [Hall|Hother].
  - by apply String.eqb_eq in Hall.
  - apply String.eqb_eq in Hother. rewrite <- Hother in Htopic. simpl in Htopic.
    exfalso. intuition discriminate.
Qed.

(** X27.  For a user without a row, an accepted threshold or topic creates
    the row with alerts on, while a time zone or a command that only reads
    the preferences creates it with alerts off; for a user with a row, none
    of these four touches the alert flag. *)
Theorem alerts_flag_of_side_commands uid c t :
  c <> CmdOn -> c <> CmdOff -> rejected zone_ok c = false ->
  match t !! uid with
  | None =>
      s_alerts_on <$> (handle cfg zone_ok uid c t !! uid)
      = Some (match c with CmdThresh _ | CmdTopic _ => 1 | _ => 0 end)
  | Some r => s_alerts_on <$> (handle cfg zone_ok uid c t !! uid) = Some (s_alerts_on r)
  end.
Proof.
  intros Hon Hoff Hacc.
  destruct c as [| |val|topic|tz_arg|]; try done; cbn [handle rejected] in *.
  - unfold handle_thresh_input, upsert. rewrite Hacc.
    destruct (t !! uid) as [r|]; by rewrite lookup_insert_eq.
  - unfold set_topic_value, upsert. rewrite Hacc.
    destruct (t !! uid) as [r|]; by rewrite lookup_insert_eq.
  - unfold set_timezone_value, upsert. rewrite Hacc.
    destruct (t !! uid) as [r|]; by rewrite lookup_insert_eq.
  - unfold get_user_prefs, ensure_sub. cbn [fst].
    destruct (t !! uid) as [r|] eqn:Hr; [by rewrite Hr | by rewrite lookup_insert_eq].
Qed.

(** X28.  A command changes at most the row of the user who sent it, and a
    command that is turned down (a threshold under 500, an unknown topic, an
    invalid time zone) changes nothing at all. *)
Theorem command_frame uid c t :
  (forall uid', uid' <> uid -> handle cfg zone_ok uid c t !! uid' = t !! uid') /\
  (rejected zone_ok c = true -> handle cfg zone_ok uid c t = t).
Proof.
  assert (Hup : forall fresh update uid', uid' <> uid ->
                  upsert uid fresh update t !! uid' = t !! uid').
  { intros fresh update uid' Hne. unfold upsert.
    destruct (t !! uid); by rewrite lookup_insert_ne. }
  split.
  - intros uid' Hne. destruct c as [| |val|topic|tz_arg|]; cbn [handle].
    + by apply Hup.
    + by apply Hup.
    + unfold handle_thresh_input. destruct (negb _); [done | by apply Hup].
    + unfold set_topic_value. destruct (negb _); [done | by apply Hup].
    + unfold set_timezone_value. destruct (negb _); [done | by apply Hup].
    + unfold get_user_prefs, ensure_sub. cbn [fst].
      destruct (t !! uid); [done | by rewrite lookup_insert_ne].
  - intros Hrej. destruct c as [| |val|topic|tz_arg|]; try done; cbn [handle rejected] in *.
    + unfold handle_thresh_input. by rewrite Hrej.
    + unfold set_topic_value. by rewrite Hrej.
    + unfold set_timezone_value. by rewrite Hrej.
Qed.

End Handler_facts.

(** ** The query of [show_recent] *)

Lemma newer_first_sorted (l : list PrintRow) : StronglySorted newer_first (merge_sort newer_first l).
Proof.
  apply StronglySorted_merge_sort.
  - intros r1 r2 r3. unfold newer_first. lia.
  - intros r1 r2. unfold newer_first. lia.
Qed.

(** X29.  The list [show_recent] displays holds at most ten stored rows, all
    with a notional of at least the user's threshold, newest first; and any
    qualifying row left out is not newer than any row shown. *)
Theorem recent_whales_spec d thr :
  let shown := recent_whales d thr in
  (length shown <= 10)%nat /\
  (forall r, In r shown -> In r (prints d) /\ (thr <= p_notional_usd r)%Q) /\
  StronglySorted newer_first shown /\
  (forall r r', In r (prints d) -> (thr <= p_notional_usd r)%Q -> ~ In r shown ->
                In r' shown -> p_ts_ms r <= p_ts_ms r').
Proof.
  intros shown. unfold shown, recent_whales.
  set (rows := List.filter (fun r => Qle_bool thr (p_notional_usd r)) (prints d)).
  set (ordered := merge_sort newer_first rows).
  assert (Hperm : ordered ≡ₚ rows) by apply merge_sort_Permutation.
  assert (Hsorted : StronglySorted newer_first (take 10 ordered ++ drop 10 ordered)).
  { rewrite take_drop. apply newer_first_sorted. }
  split_and!.
  - rewrite length_take. lia.
  - intros r Hr.
    assert (Hin : In r rows).
    { apply list_elem_of_In. rewrite <- Hperm. apply list_elem_of_In.
      rewrite <- (take_drop 10 ordered). apply in_app_iff. by left. }
    apply filter_In in Hin as [Hin Hq]. split; [done|]. by apply Qle_bool_iff.
  - by apply StronglySorted_app_1_l in Hsorted.
  - intros r r' Hr Hq Hout Hr'.
    assert (Hin : In r (take 10 ordered ++ drop 10 ordered)).
    { rewrite take_drop. apply list_elem_of_In. rewrite Hperm. apply list_elem_of_In.
      apply filter_In. split; [done|]. by apply Qle_bool_iff. }
    apply in_app_iff in Hin as [Hin|Hin]; [done|].
    apply (StronglySorted_app_1_elem_of newer_first _ _ r' r Hsorted);
      by apply list_elem_of_In.
Qed.

(** ** The further properties at concrete inputs *)

(** The primary fails the probe (503), the fallback answers 200. *)
Lemma pick_host_pins_first_ok_witness :
  host (pick_host (Ex.net_primary_down []) (KalshiHTTP_init Ex.cfg)) = Some FALLBACK /\
  length (sent (pick_host (Ex.net_primary_down []) (KalshiHTTP_init Ex.cfg))) = 2%nat.
Proof.
  rewrite (pick_host_pins_first_ok (Ex.net_primary_down []) (KalshiHTTP_init Ex.cfg)
             [Ex.A] FALLBACK []).
  - split; reflexivity.
  - reflexivity.
  - intros [|i] h' Hi; [injection Hi as <-; reflexivity | discriminate Hi].
  - reflexivity.
Defined.

(** Only the configured base URL is a host and it is down: the fallback is
    pinned all the same. *)
Lemma pick_host_defaults_to_fallback_witness :
  hosts (KalshiHTTP_init Ex2.own_url) = [PRIMARY Ex2.own_url] /\
  host (pick_host Ex2.net_down (KalshiHTTP_init Ex2.own_url)) = Some FALLBACK.
Proof.
  split; [reflexivity|].
  rewrite (pick_host_defaults_to_fallback Ex2.net_down (KalshiHTTP_init Ex2.own_url)).
  - reflexivity.
  - intros i h' Hi. reflexivity.
Defined.


(** The pinned host raises an unexpected exception; then it answers 200
    without JSON. *)
Lemma resilient_get_stops_on_other_errors_witness :
  resilient_get Ex2.net_broken trades_path (trades_params 1000 None) (Ex.pinned (Some false))
  = (with_sent (Ex.pinned (Some false)) [mk_request Ex.A trades_path (trades_params 1000 None)],
     inl OtherError) /\
  (resilient_get Ex2.net_not_json trades_path (trades_params 1000 None) (Ex.pinned (Some false))).2
  = inl OtherError.
Proof.
  split.
  - destruct (resilient_get_stops_on_other_errors Ex2.net_broken trades_path
                (trades_params 1000 None) (Ex.pinned (Some false)) Ex.A [] Ex.A [FALLBACK])
      as [Hstop _].
    + reflexivity.
    + reflexivity.
    + intros i h' Hi. discriminate Hi.
    + apply Hstop. reflexivity.
  - destruct (resilient_get_stops_on_other_errors Ex2.net_not_json trades_path
                (trades_params 1000 None) (Ex.pinned (Some false)) Ex.A [] Ex.A [FALLBACK])
      as [_ Hjson].
    + reflexivity.
    + reflexivity.
    + intros i h' Hi. discriminate Hi.
    + rewrite (Hjson 200); reflexivity.
Defined.

(** A fetch that returns trades leaves the capability state known. *)
Lemma capability_only_moves_forward_witness :
  min_ts_supported (fetch_trades_since (Ex.net_ok [Ex.t1]) 1500000000000 1000 (Ex.pinned None)).1
  <> None.
Proof.
  destruct capability_only_moves_forward as [_ Hknown].
  apply (Hknown (Ex.net_ok [Ex.t1]) 1500000000000 1000 (Ex.pinned None) [Ex.t1]).
  reflexivity.
Defined.

(** All hosts are down at first use: the filter is given up for good. *)
Lemma probe_failure_disables_filter_witness :
  min_ts_supported (fetch_trades_since Ex2.net_down 1500000000000 1000 (Ex.pinned None)).1
  = Some false.
Proof.
  apply (probe_failure_disables_filter Ex2.net_down 1500000000000 1000 (Ex.pinned None)
           (with_sent (Ex.pinned None)
              (map (fun h => mk_request h trades_path (trades_params 1 (Some 1500000000000)))
                   [Ex.A; FALLBACK]))
           (ServerError 503)).
  - reflexivity.
  - reflexivity.
  - right. reflexivity.
Defined.

(** The probe is answered 404: the error surfaces and the state stays
    unknown. *)
Lemma probe_error_reraised_witness :
  (fetch_trades_since Ex.net_fallback_404 1500000000000 1000 (Ex.pinned None)).2
  = inl (HTTPStatusError 404) /\
  min_ts_supported (fetch_trades_since Ex.net_fallback_404 1500000000000 1000 (Ex.pinned None)).1
  = None.
Proof.
  destruct (probe_error_reraised Ex.net_fallback_404 1500000000000 1000 (Ex.pinned None)
              (with_sent (Ex.pinned None)
                 (map (fun h => mk_request h trades_path (trades_params 1 (Some 1500000000000)))
                      [Ex.A; FALLBACK]))
              404) as [Heq Hk].
  - reflexivity.
  - reflexivity.
  - discriminate.
  - rewrite Heq. split; [reflexivity | exact Hk].
Defined.

(** 1,700,000,000 seconds and 1,700,000,000,000 milliseconds. *)
Lemma parse_ts_seconds_and_millis_agree_witness :
  parse_ts_to_ms Ex.iso 5 (Some "1700000000") = 1700000000000 /\
  parse_ts_to_ms Ex.iso 7 (Some "1700000000000") = 1700000000000.
Proof.
  apply (parse_ts_seconds_and_millis_agree Ex.iso 5 7 "1700000000" "1700000000000" 1700000000).
  - reflexivity.
  - reflexivity.
  - lia.
Defined.

(** A symbol that holds both BTC and CPI is crypto. *)
Lemma categorize_ticker_spec_witness : categorize_ticker "cpi-btc-25" = "crypto".
Proof.
  destruct (categorize_ticker_spec "cpi-btc-25") as (_ & _ & Hcrypto).
  apply Hcrypto. reflexivity.
Defined.

(** A topic in capitals matches nothing. *)
Lemma topic_match_spec_witness : topic_match "CRYPTO" "BTC-X" = false.
Proof.
  destruct (topic_match_spec "CRYPTO" "BTC-X") as [_ Hnone].
  apply Hnone. simpl. intros H. repeat (destruct H as [H|H]; [discriminate H|]). exact H.
Defined.

(** The median of 3, 1, 2 in two orders, and its bounds. *)
Lemma median_spec_witness :
  median Ex2.sizes = median Ex2.sizes' /\ (inject_Z 1 <= median Ex2.sizes)%Q.
Proof.
  destruct median_spec as (_ & Hperm & Hbounds).
  split.
  - apply Hperm. unfold Ex2.sizes, Ex2.sizes'.
    apply perm_trans with [1; 3; 2]; [apply perm_swap|].
    apply perm_trans with [1; 2; 3]; [apply perm_skip; apply perm_swap|].
    apply perm_trans with [2; 1; 3]; [apply perm_swap|].
    apply perm_skip. apply perm_swap.
  - apply (Hbounds Ex2.sizes 1 3); [discriminate|].
    intros x Hx. unfold Ex2.sizes in Hx. simpl in Hx. lia.
Defined.

(** Three qualifying rows: the sample is the whole of them. *)
Lemma ticker_recent_counts_24h_spec_witness :
  median (ticker_recent_counts_24h Ex2.three_rows 1600000200000 "BTC-X")
  = median (map p_count (recent_rows Ex2.three_rows 1600000200000 "BTC-X")).
Proof.
  destruct (ticker_recent_counts_24h_spec Ex2.three_rows 1600000200000 "BTC-X") as (_ & _ & Hm).
  apply Hm. apply Nat.leb_le. vm_compute. reflexivity.
Defined.

(** A [null] under [yes_price] hides the 60 cents under [price] from the
    notional, not from [yes_cents]. *)
Lemma trade_notional_usd_precedence_witness :
  trade_notional_usd Ex2.t_dollars = (inject_Z 100 * (3 # 4))%Q /\
  (trade_notional_usd Ex2.t_null_yes_price = 0%Q /\
   core_yes_cents (trade_core_fields Ex.iso 1700000000000 Ex2.t_null_yes_price)
   = int_of_float (or_else (number_of (tr_price Ex2.t_null_yes_price)) 0%Q) /\
   process_trade Ex.cfg Ex.iso 1700000000000 (Ex.delivers 0%nat)
     (active_subs [Ex.subscriber 7]) Ex2.t_null_yes_price (Ex.batch0 empty_db 1500000000000)
   = (Ex.batch0 empty_db 1500000000000, false)).
Proof.
  destruct (trade_notional_usd_precedence Ex.cfg Ex.iso 1700000000000 (Ex.delivers 0%nat)
              (active_subs [Ex.subscriber 7]) Ex2.t_dollars (Ex.batch0 empty_db 1500000000000))
    as [Hd _].
  destruct (trade_notional_usd_precedence Ex.cfg Ex.iso 1700000000000 (Ex.delivers 0%nat)
              (active_subs [Ex.subscriber 7]) Ex2.t_null_yes_price
              (Ex.batch0 empty_db 1500000000000)) as [_ Hn].
  split.
  - apply Hd. reflexivity.
  - apply Hn; reflexivity.
Defined.


(** From the empty store the key stays unique over two overlapping cycles. *)
Lemma prints_key_unique_witness :
  keys_unique (db (ingest_run Ex.cfg Ex.iso
                     [Ex.env (Ex.net_ok [Ex.t1; Ex.t2]) [] Ex.delivers;
                      Ex.env (Ex.net_ok [Ex.t2; Ex.t3]) [] Ex.delivers]
                     (Ex.loop (Some false) 1500000000000))).
Proof.
  apply prints_key_unique. unfold keys_unique. simpl. constructor.
Defined.

(** A trade on BTC-X leaves the state of FED-25 alone. *)
Lemma process_trade_frame_witness :
  let b := Ex.batch0 (update_last_trade_ts empty_db "FED-25" 1234) 1500000000000 in
  last_trade_ts_for_ticker
    (b_db (process_trade Ex.cfg Ex.iso 1700000000000 (Ex.delivers 0%nat) [] Ex.t1 b).1) "FED-25"
  = 1234.
Proof.
  intros b.
  destruct (process_trade_frame Ex.cfg Ex.iso 1700000000000 (Ex.delivers 0%nat) [] Ex.t1 b
              "FED-25") as [Hl _].
  - vm_compute. discriminate.
  - rewrite Hl. reflexivity.
Defined.

(** Four subscribers: one off, one with a higher threshold, one on another
    topic, one that qualifies. *)
Lemma dispatch_reaches_the_qualifying_witness :
  let subs := [Ex2.sub 1 0 5000 "all"; Ex2.sub 2 1 9000 "all";
               Ex2.sub 3 1 5000 "macro"; Ex2.sub 4 1 5000 "crypto"] in
  map (fun p => (a_uid p.1, a_tz p.1))
      (dispatch (Ex.delivers 0%nat) (active_subs subs) "BTC-X" "YES" 6000 10000 60
         1600000000000 [] []).1
  = [(4, "UTC")].
Proof.
  intros subs.
  destruct (dispatch_reaches_the_qualifying (Ex.delivers 0%nat) subs "BTC-X" "YES" 6000 10000 60
              1600000000000 [] []) as (_ & new & Hn & Hm & _).
  - intros uid. reflexivity.
  - rewrite Hn. cbn [app]. rewrite Hm. reflexivity.
Defined.

(** After a cycle that moved the watermark, a restart resumes there. *)
Lemma restart_resumes_at_watermark_witness :
  let st := ingest_cycle Ex.cfg Ex.iso (Ex.env (Ex.net_ok [Ex.t1]) [] Ex.delivers)
              (Ex.loop (Some false) 1500000000000) in
  let st' := ingest_run Ex.cfg Ex.iso
               [Ex.env (Ex.net_ok [Ex.t2; Ex.t3]) [] Ex.delivers;
                Ex.env (Ex.net_ok [Ex.t_late]) [] Ex.delivers] st in
  last_ts (ingest_start 1700000000000 (Ex.pinned None) (db st')) = last_ts st'.
Proof.
  intros st st'.
  apply (restart_resumes_at_watermark Ex.cfg Ex.iso
           [Ex.env (Ex.net_ok [Ex.t2; Ex.t3]) [] Ex.delivers;
            Ex.env (Ex.net_ok [Ex.t_late]) [] Ex.delivers] st 1700000000000 (Ex.pinned None)).
  - reflexivity.
  - vm_compute. discriminate.
Defined.

(** A batch of one unpriced trade. *)
Lemma non_positive_batch_is_idle_witness :
  let st := Ex.loop (Some false) 1500000000000 in
  let env := Ex.env (Ex.net_ok [Ex.t_unpriced]) [Ex.subscriber 7] Ex.delivers in
  db (ingest_cycle Ex.cfg Ex.iso env st) = db st /\
  last_ts (ingest_cycle Ex.cfg Ex.iso env st) = last_ts st.
Proof.
  intros st env.
  rewrite (non_positive_batch_is_idle Ex.cfg Ex.iso env st [Ex.t_unpriced]).
  - split; reflexivity.
  - reflexivity.
  - reflexivity.
  - repeat constructor.
Defined.

(** A user sets a threshold, a topic in capitals (turned down), a time zone,
    and switches the alerts off. *)
Lemma subs_rows_stay_valid_witness :
  table_ok Ex.cfg
    (run_commands Ex.cfg Ex2.any_zone
       [(7, CmdThresh 8000); (7, CmdTopic "MACRO"); (7, CmdTz "Europe/Paris"); (7, CmdOff)] ∅).
Proof.
  apply subs_rows_stay_valid. intros uid r Hr. rewrite lookup_empty in Hr. discriminate Hr.
Defined.

(** User 7 asked for "all", then a symbol of no known category arrives. *)
Lemma other_category_reaches_all_only_witness :
  s_topic (sub_row 7 1 5000 "all" "UTC") = "all".
Proof.
  apply (other_category_reaches_all_only Ex.cfg Ex2.any_zone [(7, CmdTopic "all")] 7
           (sub_row 7 1 (DEFAULT_THRESH Ex.cfg) "all" "UTC") "WEATHER-NYC").
  - reflexivity.
  - reflexivity.
  - reflexivity.
Defined.

(** A first threshold switches the alerts on; a first time zone does not. *)
Lemma alerts_flag_of_side_commands_witness :
  s_alerts_on <$> (handle Ex.cfg Ex2.any_zone 7 (CmdThresh 8000) ∅ !! 7) = Some 1 /\
  s_alerts_on <$> (handle Ex.cfg Ex2.any_zone 7 (CmdTz "Europe/Paris") ∅ !! 7) = Some 0.
Proof.
  split.
  - pose proof (alerts_flag_of_side_commands Ex.cfg Ex2.any_zone 7 (CmdThresh 8000) ∅) as H.
    rewrite lookup_empty in H. apply H; [discriminate | discriminate | reflexivity].
  - pose proof (alerts_flag_of_side_commands Ex.cfg Ex2.any_zone 7 (CmdTz "Europe/Paris") ∅) as H.
    rewrite lookup_empty in H. apply H; [discriminate | discriminate | reflexivity].
Defined.

(** A threshold of 100 is turned down; user 8's commands leave user 7's row. *)
Lemma command_frame_witness :
  let t := handle Ex.cfg Ex2.any_zone 7 CmdOn ∅ in
  handle Ex.cfg Ex2.any_zone 7 (CmdThresh 100) t = t /\
  handle Ex.cfg Ex2.any_zone 8 CmdOff t !! 7 = t !! 7.
Proof.
  intros t.
  destruct (command_frame Ex.cfg Ex2.any_zone 7 (CmdThresh 100) t) as [_ Hrej].
  destruct (command_frame Ex.cfg Ex2.any_zone 8 CmdOff t) as [Hother _].
  split.
  - apply Hrej. reflexivity.
  - apply Hother. discriminate.
Defined.

(** With a threshold of 5000 all three rows are shown, each of them stored. *)
Lemma recent_whales_spec_witness :
  Forall (fun r => In r (prints Ex2.three_rows)) (recent_whales Ex2.three_rows 5000).
Proof.
  destruct (recent_whales_spec Ex2.three_rows 5000) as (_ & Hin & _).
  apply Forall_forall. intros r Hr. apply list_elem_of_In in Hr. by apply Hin.
Defined.
